(** * Codec engine of the sdp package (util.go)

    A shallow embedding of [newSessionID], the [rtpmap] / [fmtp] / [rtcp-fb]
    attribute decoders, [mergeCodecs], [buildCodecMap], [equivalentFmtp],
    [codecsMatch] and the three codec queries, followed by the properties
    that the design document states about them.

    Conventions.
    - A Go [string] is a byte sequence: Rocq's [string] (a list of [ascii]).
    - [uint8], [uint32] and [uint64] are [Z] with the wrap-around written out.
    - [map[uint8]Codec] is a [gmap Z Codec]; reading an absent key gives the
      zero [Codec], as in Go.
    - A Go result pair [(v, err)] is a pair [(v, option error)]; [None] is
      [nil]. *)

From Stdlib Require Import ZArith Ascii String List Bool Lia Permutation.
From Stdlib Require DecimalString DecimalN DecimalPos.
From stdpp Require Import base option list gmap fin_maps sorting.

Local Open Scope string_scope.
Local Open Scope list_scope.
Local Open Scope Z_scope.

(** ** The error values of the package *)

Inductive error : Set :=
  | errExtractCodecRtpmap
  | errExtractCodecFmtp
  | errExtractCodecRtcpFb
  | errPayloadTypeNotFound
  | errCodecNotFound
  | errSyntaxError
  | errFieldMissing
  | strconvErrSyntax   (* *strconv.NumError wrapping strconv.ErrSyntax *)
  | strconvErrRange.   (* *strconv.NumError wrapping strconv.ErrRange *)

(** ** Fixed-width unsigned integers *)

Definition uint8 (z : Z) : Z := z mod 2 ^ 8.
Definition uint32 (z : Z) : Z := z mod 2 ^ 32.
Definition uint64 (z : Z) : Z := z mod 2 ^ 64.

(** ** The parts of Go's [strings], [strconv] and [sort] that util.go calls *)

Module strings.

Definition byteVal (c : ascii) : Z := Z.of_N (N_of_ascii c).

(** [strings.HasPrefix(s, prefix)]. *)
Definition HasPrefix (s prefix : string) : bool := String.prefix prefix s.

(** [genSplit] for a one-byte separator: [budget] is the number of cuts
    still allowed, [None] when unlimited; [cur] is the piece being read. *)
Fixpoint genSplit (sep : ascii) (budget : option nat) (cur s : string)
  : list string :=
  match s with
  | EmptyString => [cur]
  | String c rest =>
      match budget with
      | Some O => [(cur ++ s)%string]
      | _ =>
          if Ascii.eqb c sep
          then cur :: genSplit sep (Nat.pred <$> budget) "" rest
          else genSplit sep budget (cur ++ String c "")%string rest
      end
  end.

(** [strings.Split(s, sep)] where [sep] is a single byte, which is the
    only way util.go calls it. *)
Definition Split (s : string) (sep : ascii) : list string :=
  genSplit sep None "" s.

(** [strings.SplitN(s, sep, n)] where [sep] is a single byte: [n = 0]
    gives no piece, [n < 0] all of them, [n > 0] at most [n], the last one
    being the unsplit remainder. *)
Definition SplitN (s : string) (sep : ascii) (n : Z) : list string :=
  if n =? 0 then []
  else if n <? 0 then genSplit sep None "" s
  else genSplit sep (Some (Z.to_nat (n - 1))) "" s.

(** *** [strings.TrimSpace]

    White space is what [unicode.IsSpace] accepts. On the UTF-8 bytes of a
    string these are the six ASCII bytes HT, LF, VT, FF, CR and SP, and the
    encodings of U+0085, U+00A0, U+1680, U+2000..U+200A, U+2028, U+2029,
    U+202F, U+205F and U+3000. A byte sequence that is not valid UTF-8
    decodes to U+FFFD, which is not white space. *)

Definition asciiSpace (b : Z) : bool :=
  (b =? 9) || (b =? 10) || (b =? 11) || (b =? 12) || (b =? 13) || (b =? 32).

Definition space2 (b0 b1 : Z) : bool :=
  (b0 =? 194) && ((b1 =? 133) || (b1 =? 160)).

Definition space3 (b0 b1 b2 : Z) : bool :=
  ((b0 =? 225) && (b1 =? 154) && (b2 =? 128))
  || ((b0 =? 226) && (b1 =? 128)
      && (((128 <=? b2) && (b2 <=? 138))
          || (b2 =? 168) || (b2 =? 169) || (b2 =? 175)))
  || ((b0 =? 226) && (b1 =? 129) && (b2 =? 159))
  || ((b0 =? 227) && (b1 =? 128) && (b2 =? 128)).

(** Drop the white-space runes at the front of a byte list. *)
Fixpoint trimLeft (l : list ascii) : list ascii :=
  match l with
  | [] => []
  | c0 :: l1 =>
      if asciiSpace (byteVal c0) then trimLeft l1
      else
        match l1 with
        | c1 :: l2 =>
            if space2 (byteVal c0) (byteVal c1) then trimLeft l2
            else
              match l2 with
              | c2 :: l3 =>
                  if space3 (byteVal c0) (byteVal c1) (byteVal c2)
                  then trimLeft l3 else l
              | [] => l
              end
        | [] => l
        end
  end.

(** The same from the back, on the reversed byte list: the last byte of the
    rune comes first. *)
Fixpoint trimRightRev (l : list ascii) : list ascii :=
  match l with
  | [] => []
  | c0 :: l1 =>
      if asciiSpace (byteVal c0) then trimRightRev l1
      else
        match l1 with
        | c1 :: l2 =>
            if space2 (byteVal c1) (byteVal c0) then trimRightRev l2
            else
              match l2 with
              | c2 :: l3 =>
                  if space3 (byteVal c2) (byteVal c1) (byteVal c0)
                  then trimRightRev l3 else l
              | [] => l
              end
        | [] => l
        end
  end.

Definition TrimSpace (s : string) : string :=
  string_of_list_ascii
    (rev (trimRightRev (rev (trimLeft (list_ascii_of_string s))))).

(** *** [strings.EqualFold]

    The library compares byte by byte while both bytes are ASCII, folding
    'A'..'Z' onto 'a'..'z'. At the first position where either byte is
    not ASCII it hands the two remaining suffixes to a loop driven by the
    Unicode case-folding tables; those tables are not part of this
    repository, so that loop is the parameter [foldUnicode]. *)
Section EqualFold.
Variable foldUnicode : string -> string -> bool.

Fixpoint EqualFold (s t : string) : bool :=
  match s, t with
  | EmptyString, EmptyString => true
  | String sr s', String tr t' =>
      let a := byteVal sr in
      let b := byteVal tr in
      if (128 <=? a) || (128 <=? b) then foldUnicode s t
      else if a =? b then EqualFold s' t'
      else
        let lo := Z.min a b in
        let hi := Z.max a b in
        if (65 <=? lo) && (lo <=? 90) && (hi =? lo + 97 - 65)
        then EqualFold s' t'
        else false
  | _, _ => false
  end.
End EqualFold.

End strings.

Module strconv.

Definition digit (c : ascii) : option Z :=
  let b := strings.byteVal c in
  if (48 <=? b) && (b <=? 57) then Some (b - 48) else None.

(** The value of a run of decimal digits read from the left, [acc] being the
    value read so far; [None] when a byte is not a digit. The statements
    about [ParseUint] below are written with it. *)
Fixpoint digits (acc : Z) (s : string) : option Z :=
  match s with
  | EmptyString => Some acc
  | String c rest =>
      match digit c with
      | Some d => digits (acc * 10 + d) rest
      | None => None
      end
  end.

(** The smallest number whose tenfold exceeds the largest [uint64]. *)
Definition cutoff : Z := (2 ^ 64 - 1) / 10 + 1.

(** The loop of [ParseUint] over the bytes of the string in base 10, [n]
    being the [uint64] read so far: a byte that is not a digit ends it with
    a syntax error and 0; a digit that takes the value over the largest
    [uint64] or over [maxVal] ends it with a range error and [maxVal]. *)
Fixpoint parseLoop (maxVal n : Z) (s : string) : Z * option error :=
  match s with
  | EmptyString => (n, None)
  | String c rest =>
      match digit c with
      | None => (0, Some strconvErrSyntax)
      | Some d =>
          if cutoff <=? n then (maxVal, Some strconvErrRange)
          else
            let n := n * 10 in
            let n1 := uint64 (n + d) in
            if (n1 <? n) || (maxVal <? n1)
            then (maxVal, Some strconvErrRange)
            else parseLoop maxVal n1 rest
      end
  end.

(** [strconv.ParseUint(s, 10, bitSize)] for a width from 1 to 64, util.go
    passing 8 and 32: the empty string is a syntax error; no sign and no
    underscore is accepted in base 10; then the loop above, the largest
    value of the width being [2 ^ bitSize - 1]. *)
Definition ParseUint (s : string) (bitSize : Z) : Z * option error :=
  match s with
  | EmptyString => (0, Some strconvErrSyntax)
  | _ => parseLoop (2 ^ bitSize - 1) 0 s
  end.

End strconv.

Module sort.

(** Go's [<=] on strings is the lexicographic order on bytes. *)
Fixpoint insert (x : string) (l : list string) : list string :=
  match l with
  | [] => [x]
  | y :: l' => if String.leb x y then x :: l else y :: insert x l'
  end.

(** [sort.Strings]: the slice in increasing order. Equal strings cannot be
    told apart, so every sorting algorithm gives the same slice; insertion
    sort stands for the library's. *)
Definition Strings (l : list string) : list string :=
  foldr insert [] l.

End sort.

(** ** Data model *)

(** Codec represents a codec. *)
Record Codec : Type := mkCodec {
  PayloadType : Z;              (* uint8 *)
  Name : string;
  ClockRate : Z;                (* uint32 *)
  EncodingParameters : string;
  Fmtp : string;
  RTCPFeedback : list string
}.

(** The zero value of [Codec]: what [var codec Codec] declares and what
    reading an absent key of a [map[uint8]Codec] returns. *)
Definition zeroCodec : Codec := mkCodec 0 "" 0 "" "" [].

Definition setPayloadType (v : Z) (c : Codec) : Codec :=
  mkCodec v (Name c) (ClockRate c) (EncodingParameters c) (Fmtp c)
    (RTCPFeedback c).
Definition setName (v : string) (c : Codec) : Codec :=
  mkCodec (PayloadType c) v (ClockRate c) (EncodingParameters c) (Fmtp c)
    (RTCPFeedback c).
Definition setClockRate (v : Z) (c : Codec) : Codec :=
  mkCodec (PayloadType c) (Name c) v (EncodingParameters c) (Fmtp c)
    (RTCPFeedback c).
Definition setEncodingParameters (v : string) (c : Codec) : Codec :=
  mkCodec (PayloadType c) (Name c) (ClockRate c) v (Fmtp c) (RTCPFeedback c).
Definition setFmtp (v : string) (c : Codec) : Codec :=
  mkCodec (PayloadType c) (Name c) (ClockRate c) (EncodingParameters c) v
    (RTCPFeedback c).
Definition setRTCPFeedback (v : list string) (c : Codec) : Codec :=
  mkCodec (PayloadType c) (Name c) (ClockRate c) (EncodingParameters c)
    (Fmtp c) v.

(** Modelled from the spec: the [Attribute] type and its [String] method are
    declared outside util.go. The design document gives an attribute a key
    and an optional value, serialized as [key] or [key:value]. *)
Record Attribute : Type := mkAttribute {
  Key : string;
  Value : option string
}.

Definition Attribute_String (a : Attribute) : string :=
  match Value a with
  | None => Key a
  | Some v => (Key a ++ ":" ++ v)%string
  end.

(** Modelled from the spec: [MediaDescription] and [SessionDescription] are
    declared outside util.go. Only what the codec engine can reach is kept:
    the ordered attributes of a media block, and the ordered media blocks
    and session-level attributes of a session. *)
Record MediaDescription : Type := mkMediaDescription {
  Attributes : list Attribute
}.

Record SessionDescription : Type := mkSessionDescription {
  SessionAttributes : list Attribute;
  MediaDescriptions : list MediaDescription
}.

(** ** newSessionID

    [randutil.CryptoUint64] is an external source: its result, a 64-bit
    value paired with an error, is the argument [rng]. The error type of the
    source is its own, hence the parameter [E]. *)
Definition newSessionID {E : Type} (rng : Z * option E) : Z * option E :=
  let '(id, err) := rng in
  (Z.land id (uint64 (Z.lnot (Z.shiftl (uint64 1) 63))), err).

(** ** Decoders *)

(** [c.appendRTCPFeedback(rtcpFeedback)] *)
Definition appendRTCPFeedback (c : Codec) (rtcpFeedback : string) : Codec :=
  if existsb (fun existingRTCPFeedback =>
                String.eqb existingRTCPFeedback rtcpFeedback)
       (RTCPFeedback c)
  then c
  else setRTCPFeedback (RTCPFeedback c ++ [rtcpFeedback]) c.

Definition parseRtpmap (rtpmap : string) : Codec * option error :=
  let codec := zeroCodec in
  let parsingFailed := errExtractCodecRtpmap in
  match strings.Split rtpmap " " with
  | [split0; split1] =>
      match strings.Split split0 ":" with
      | [_; ptSplit1] =>
          match strconv.ParseUint ptSplit1 8 with
          | (_, Some _) => (codec, Some parsingFailed)
          | (ptInt, None) =>
              let codec := setPayloadType (uint8 ptInt) codec in
              let split := strings.Split split1 "/" in
              let codec := setName (nth 0 split "") codec in
              let parts := Z.of_nat (length split) in
              let step :=
                if 1 <? parts then
                  match strconv.ParseUint (nth 1 split "") 32 with
                  | (_, Some _) => inr (codec, Some parsingFailed)
                  | (rate, None) => inl (setClockRate (uint32 rate) codec)
                  end
                else inl codec in
              match step with
              | inr failed => failed
              | inl codec =>
                  let codec :=
                    if 2 <? parts
                    then setEncodingParameters (nth 2 split "") codec
                    else codec in
                  (codec, None)
              end
          end
      | _ => (codec, Some parsingFailed)
      end
  | _ => (codec, Some parsingFailed)
  end.

Definition parseFmtp (fmtp : string) : Codec * option error :=
  let codec := zeroCodec in
  let parsingFailed := errExtractCodecFmtp in
  match strings.SplitN fmtp " " 2 with
  | [split0; formatParams] =>
      match strings.Split split0 ":" with
      | [_; split1] =>
          match strconv.ParseUint split1 8 with
          | (_, Some _) => (codec, Some parsingFailed)
          | (ptInt, None) =>
              let codec := setPayloadType (uint8 ptInt) codec in
              let codec := setFmtp formatParams codec in
              (codec, None)
          end
      | _ => (codec, Some parsingFailed)
      end
  | _ => (codec, Some parsingFailed)
  end.

(** The results are named in the source: a bare [return] gives back their
    current values, so a payload type that does not parse returns the error
    of [strconv.ParseUint] itself. *)
Definition parseRtcpFb (rtcpFb : string) : Codec * bool * option error :=
  let codec := zeroCodec in
  let err := Some errExtractCodecRtcpFb in
  match strings.SplitN rtcpFb " " 2 with
  | [split0; split1] =>
      match strings.Split split0 ":" with
      | [_; ptSplit1] =>
          let isWildcard := String.eqb ptSplit1 "*" in
          let step :=
            if negb isWildcard then
              match strconv.ParseUint ptSplit1 8 with
              | (_, Some e) => inr (codec, isWildcard, Some e)
              | (ptInt, None) => inl (setPayloadType (uint8 ptInt) codec)
              end
            else inl codec in
          match step with
          | inr failed => failed
          | inl codec =>
              let codec :=
                setRTCPFeedback (RTCPFeedback codec ++ [split1]) codec in
              (codec, isWildcard, None)
          end
      | _ => (codec, false, err)
      end
  | _ => (codec, false, err)
  end.

(** ** Merging fragments *)

(** [mergeCodecs(codec, codecs)]: the map is updated in place in the source;
    here the updated map is returned. *)
Definition mergeCodecs (codec : Codec) (codecs : gmap Z Codec)
  : gmap Z Codec :=
  let savedCodec := default zeroCodec (codecs !! PayloadType codec) in
  let savedCodec :=
    if PayloadType savedCodec =? 0
    then setPayloadType (PayloadType codec) savedCodec else savedCodec in
  let savedCodec :=
    if String.eqb (Name savedCodec) ""
    then setName (Name codec) savedCodec else savedCodec in
  let savedCodec :=
    if ClockRate savedCodec =? 0
    then setClockRate (ClockRate codec) savedCodec else savedCodec in
  let savedCodec :=
    if String.eqb (EncodingParameters savedCodec) ""
    then setEncodingParameters (EncodingParameters codec) savedCodec
    else savedCodec in
  let savedCodec :=
    if String.eqb (Fmtp savedCodec) ""
    then setFmtp (Fmtp codec) savedCodec else savedCodec in
  let savedCodec :=
    setRTCPFeedback (RTCPFeedback savedCodec ++ RTCPFeedback codec)
      savedCodec in
  <[PayloadType savedCodec := savedCodec]> codecs.

(** The static codecs that do not require a rtpmap. *)
Definition staticCodecs : gmap Z Codec :=
  <[8 := mkCodec 8 "PCMA" 8000 "" "" []]>
    (<[0 := mkCodec 0 "PCMU" 8000 "" "" []]> ∅).

(** The two locals of the scan: the map and the wildcard feedback. *)
Definition scanState : Type := gmap Z Codec * list string.

(** One turn of the inner loop of [buildCodecMap]: the [switch] on the
    prefix of [a.String()]. *)
Definition scanAttribute (st : scanState) (a : Attribute) : scanState :=
  let '(codecs, wildcardRTCPFeedback) := st in
  let attr := Attribute_String a in
  if strings.HasPrefix attr "rtpmap:" then
    match parseRtpmap attr with
    | (codec, None) => (mergeCodecs codec codecs, wildcardRTCPFeedback)
    | (_, Some _) => st
    end
  else if strings.HasPrefix attr "fmtp:" then
    match parseFmtp attr with
    | (codec, None) => (mergeCodecs codec codecs, wildcardRTCPFeedback)
    | (_, Some _) => st
    end
  else if strings.HasPrefix attr "rtcp-fb:" then
    match parseRtcpFb attr with
    | (_, _, Some _) => st
    | (codec, true, None) =>
        (codecs, wildcardRTCPFeedback ++ RTCPFeedback codec)
    | (codec, false, None) =>
        (mergeCodecs codec codecs, wildcardRTCPFeedback)
    end
  else st.

(** One turn of the outer loop: all the attributes of a media block. *)
Definition scanMedia (st : scanState) (m : MediaDescription) : scanState :=
  foldl scanAttribute st (Attributes m).

(** The two nested loops, from the static codecs and no wildcard. *)
Definition scanSession (ms : list MediaDescription) : scanState :=
  foldl scanMedia (staticCodecs, []) ms.

(** The body of the last loop of [buildCodecMap] for one entry. *)
Definition applyWildcard (wildcardRTCPFeedback : list string) (codec : Codec)
  : Codec :=
  foldl appendRTCPFeedback codec wildcardRTCPFeedback.

(** ** Methods on [*SessionDescription]

    A method receives a pointer to the session. It is a function from the
    session before the call to its result and the session after the call. *)
Definition Method (A : Type) : Type :=
  SessionDescription -> A * SessionDescription.

#[export] Instance Method_ret : MRet Method := fun A a s => (a, s).
#[export] Instance Method_bind : MBind Method :=
  fun A B k m s => let '(a, s') := m s in k a s'.

(** Reading the field [s.MediaDescriptions]. *)
Definition readMediaDescriptions : Method (list MediaDescription) :=
  fun s => (MediaDescriptions s, s).

Definition resultOf {A} (m : Method A) (s : SessionDescription) : A :=
  fst (m s).
Definition sessionAfter {A} (m : Method A) (s : SessionDescription)
  : SessionDescription :=
  snd (m s).

(** The last loop of [buildCodecMap], entry by entry in a given order of
    the range: the entry is read, extended and stored back under its key. *)
Definition wildcardLoop (wild : list string) (codecs : gmap Z Codec)
           (order : list (Z * Codec)) : gmap Z Codec :=
  foldl (fun m e => <[e.1 := applyWildcard wild e.2]> m) codecs order.

(** [s.buildCodecMap()]. The last loop stores each entry back under its own
    key, so every entry is rewritten once whatever the order of the range:
    it is written here as a map over the values, which
    [wildcardLoop_any_order] below shows [wildcardLoop] to be. *)
Definition buildCodecMap : Method (gmap Z Codec) :=
  ms ← readMediaDescriptions ;
  let '(codecs, wildcardRTCPFeedback) := scanSession ms in
  mret (applyWildcard wildcardRTCPFeedback <$> codecs).

(** [s.GetCodecForPayloadType(payloadType)] *)
Definition GetCodecForPayloadType (payloadType : Z)
  : Method (Codec * option error) :=
  codecs ← buildCodecMap ;
  match codecs !! payloadType with
  | Some codec => mret (codec, None)
  | None => mret (zeroCodec, Some errPayloadTypeNotFound)
  end.

(** [s.GetCodecsForPayloadTypes(payloadTypes)] *)
Definition GetCodecsForPayloadTypes (payloadTypes : list Z)
  : Method (list Codec * option error) :=
  codecs ← buildCodecMap ;
  let result :=
    foldl (fun result payloadType =>
             match codecs !! payloadType with
             | Some codec => result ++ [codec]
             | None => result
             end) [] payloadTypes in
  mret (result, None).

(** ** Matching *)

Definition equivalentFmtp (want got : string) : bool :=
  let wantSplit := strings.Split want ";" in
  let gotSplit := strings.Split got ";" in
  if negb (length wantSplit =? length gotSplit)%nat then false
  else
    let wantSplit := sort.Strings wantSplit in
    let gotSplit := sort.Strings gotSplit in
    forallb (fun '(wantPart, gotPart) =>
               let wantPart := strings.TrimSpace wantPart in
               let gotPart := strings.TrimSpace gotPart in
               String.eqb gotPart wantPart)
      (combine wantSplit gotSplit).

Section Matching.

(** The table-driven part of [strings.EqualFold]. *)
Variable foldUnicode : string -> string -> bool.

(** The order in which the runtime ranges over a map. Go leaves it
    unspecified; it visits every entry once. *)
Variable rangeOrder : gmap Z Codec -> list (Z * Codec).

Definition codecsMatch (wanted got : Codec) : bool :=
  if negb (String.eqb (Name wanted) "")
     && negb (strings.EqualFold foldUnicode (Name wanted) (Name got))
  then false
  else if negb (ClockRate wanted =? 0)
          && negb (ClockRate wanted =? ClockRate got)
  then false
  else if negb (String.eqb (EncodingParameters wanted) "")
          && negb (String.eqb (EncodingParameters wanted)
                     (EncodingParameters got))
  then false
  else if negb (String.eqb (Fmtp wanted) "")
          && negb (equivalentFmtp (Fmtp wanted) (Fmtp got))
  then false
  else true.

(** The loop of [GetPayloadTypeForCodec] over the entries in the order of
    the range. *)
Fixpoint firstMatch (wanted : Codec) (entries : list (Z * Codec))
  : Z * option error :=
  match entries with
  | [] => (0, Some errCodecNotFound)
  | (payloadType, codec) :: rest =>
      if codecsMatch wanted codec then (payloadType, None)
      else firstMatch wanted rest
  end.

(** [s.GetPayloadTypeForCodec(wanted)] *)
Definition GetPayloadTypeForCodec (wanted : Codec)
  : Method (Z * option error) :=
  codecs ← buildCodecMap ;
  mret (firstMatch wanted (rangeOrder codecs)).

End Matching.

(** A range order is one of those the runtime may take when it lists every
    entry of the map once. *)
Definition validRangeOrder (rangeOrder : gmap Z Codec -> list (Z * Codec))
  : Prop :=
  forall codecs, rangeOrder codecs ≡ₚ map_to_list codecs.

(** ** Sessions used in the examples *)

Definition attr (key value : string) : Attribute :=
  mkAttribute key (Some value).

Definition session (attrs : list Attribute) : SessionDescription :=
  mkSessionDescription [] [mkMediaDescription attrs].

Definition sessionVP8 : SessionDescription :=
  session [attr "rtpmap" "97 VP8/90000"; attr "rtcp-fb" "97 nack";
           attr "rtcp-fb" "* nack"; attr "rtcp-fb" "97 ccm fir";
           attr "rtcp-fb" "* goog-remb"; attr "rtcp-fb" "* goog-remb"].

(** The same rtcp-fb line twice for one payload type. *)
Definition sessionRepeated : SessionDescription :=
  session [attr "rtcp-fb" "96 nack"; attr "rtcp-fb" "96 nack"].

(** The same wildcard rtcp-fb line twice. *)
Definition sessionRepeatedWildcard : SessionDescription :=
  session [attr "rtcp-fb" "96 ccm fir"; attr "rtcp-fb" "* nack";
           attr "rtcp-fb" "* nack"].

(** Two media blocks that carry the same two rtcp-fb lines, one for payload
    type 96 and one for the wildcard. *)
Definition sessionRepeatedBlocks : SessionDescription :=
  mkSessionDescription []
    [mkMediaDescription [attr "rtcp-fb" "96 nack"; attr "rtcp-fb" "* ccm fir"];
     mkMediaDescription [attr "rtcp-fb" "96 nack"; attr "rtcp-fb" "* ccm fir"]].

Definition sessionWildcard : SessionDescription :=
  session [attr "rtpmap" "97 VP8/90000"; attr "rtcp-fb" "* nack"].

Definition sessionH263 : SessionDescription :=
  session [attr "rtpmap" "99 h263-1998/90000"; attr "fmtp" "99 custom=1"].

(** The same two attributes the other way round, in two media blocks. *)
Definition sessionH263' : SessionDescription :=
  mkSessionDescription []
    [mkMediaDescription [attr "fmtp" "99 custom=1"];
     mkMediaDescription [attr "rtpmap" "99 h263-1998/90000"]].

(** The map of the scan once [rtpmap:99 h263-1998/90000] is read. *)
Definition staticRtpmap99 : gmap Z Codec :=
  (scanSession
     (MediaDescriptions (session [attr "rtpmap" "99 h263-1998/90000"]))).1.

(** Attributes that try to redefine the static payload type 0. *)
Definition sessionOverPCMU : SessionDescription :=
  session [attr "rtpmap" "0 opus/48000/2"; attr "fmtp" "0 x=1";
           attr "rtcp-fb" "* nack"].

(** A session with an attribute that each decoder rejects. *)
Definition sessionNoise : SessionDescription :=
  session [attr "rtpmap" "96 opus/48000/2"; attr "rtpmap" "xx opus/48000";
           attr "rtpmap" "97 VP8/fast"; attr "fmtp" "96";
           attr "rtcp-fb" "256 nack"; attr "rtcp-fb" "96 nack"].

(** A session whose payload type 96 carries the fmtp [a=2; b=1]. *)
Definition sessionFmtp : SessionDescription :=
  session [attr "rtpmap" "96 opus/48000"; attr "fmtp" "96 a=2; b=1"].

(** A stand-in for the table-driven part of [strings.EqualFold], for
    evaluating on ASCII names, where it is never reached. *)
Definition noUnicodeFold (s t : string) : bool := false.

(** One range order: that of [map_to_list]. *)
Definition listOrder (codecs : gmap Z Codec) : list (Z * Codec) :=
  map_to_list codecs.

(** A wanted codec that constrains one field. *)
Definition wantedName (name : string) : Codec := mkCodec 0 name 0 "" "" [].
Definition wantedFmtp (fmtp : string) : Codec := mkCodec 0 "" 0 "" fmtp [].

(** ** Vocabulary of the statements *)

(** [noByte c s]: the byte [c] does not occur in [s]. *)
Fixpoint noByte (c : ascii) (s : string) : bool :=
  match s with
  | EmptyString => true
  | String x rest => negb (Ascii.eqb x c) && noByte c rest
  end.

(** The map is keyed by payload type: an entry sits under the payload type
    it carries. *)
Definition keyed (codecs : gmap Z Codec) : Prop :=
  forall k c, codecs !! k = Some c -> PayloadType c = k.

(** First non-empty wins. *)
Definition firstString (saved new : string) : string :=
  if String.eqb saved "" then new else saved.
Definition firstZ (saved new : Z) : Z :=
  if saved =? 0 then new else saved.

(** The accumulator for the payload type of [codec] once [codec] is merged
    into the accumulator [saved]. *)
Definition mergeFields (saved codec : Codec) : Codec :=
  mkCodec (PayloadType codec)
    (firstString (Name saved) (Name codec))
    (firstZ (ClockRate saved) (ClockRate codec))
    (firstString (EncodingParameters saved) (EncodingParameters codec))
    (firstString (Fmtp saved) (Fmtp codec))
    (RTCPFeedback saved ++ RTCPFeedback codec).

(** The fragment that the scan merges for an attribute, if it merges one. *)
Definition fragment (a : Attribute) : option Codec :=
  let attr := Attribute_String a in
  if strings.HasPrefix attr "rtpmap:" then
    match parseRtpmap attr with (codec, None) => Some codec | _ => None end
  else if strings.HasPrefix attr "fmtp:" then
    match parseFmtp attr with (codec, None) => Some codec | _ => None end
  else if strings.HasPrefix attr "rtcp-fb:" then
    match parseRtcpFb attr with
    | (codec, false, None) => Some codec
    | _ => None
    end
  else None.

(** The feedback strings that an attribute adds to the wildcard list. *)
Definition wildcardFeedback (a : Attribute) : list string :=
  let attr := Attribute_String a in
  if strings.HasPrefix attr "rtpmap:" then []
  else if strings.HasPrefix attr "fmtp:" then []
  else if strings.HasPrefix attr "rtcp-fb:" then
    match parseRtcpFb attr with
    | (codec, true, None) => RTCPFeedback codec
    | _ => []
    end
  else [].

(** The attributes of all media blocks, in encounter order. *)
Definition allAttributes (s : SessionDescription) : list Attribute :=
  MediaDescriptions s ≫= Attributes.

(** The fragments of a session that carry payload type [pt], in encounter
    order. *)
Definition fragmentsFor (pt : Z) (s : SessionDescription) : list Codec :=
  filter (fun c => PayloadType c = pt) (omap fragment (allAttributes s)).

(** The feedback strings that the rtcp-fb attributes naming [pt] carry. *)
Definition explicitFeedback (pt : Z) (s : SessionDescription) : list string :=
  fragmentsFor pt s ≫= RTCPFeedback.

(** All wildcard feedback of a session, in encounter order. *)
Definition wildcardsOf (s : SessionDescription) : list string :=
  allAttributes s ≫= wildcardFeedback.

(** A run of merges, in order. *)
Definition mergeAll (codecs : gmap Z Codec) (frags : list Codec)
  : gmap Z Codec :=
  foldl (fun m c => mergeCodecs c m) codecs frags.

(** An attribute that one of the three decoders is tried on and rejects. *)
Definition decodeFails (a : Attribute) : bool :=
  let attr := Attribute_String a in
  (strings.HasPrefix attr "rtpmap:" && bool_decide (is_Some (parseRtpmap attr).2))
  || (strings.HasPrefix attr "fmtp:" && bool_decide (is_Some (parseFmtp attr).2))
  || (strings.HasPrefix attr "rtcp-fb:"
      && bool_decide (is_Some (parseRtcpFb attr).2)).

(** The session without the attributes that fail to decode. *)
Definition dropUndecodable (s : SessionDescription) : SessionDescription :=
  mkSessionDescription (SessionAttributes s)
    ((fun m =>
        mkMediaDescription
          (filter (fun a => decodeFails a = false) (Attributes m)))
       <$> MediaDescriptions s).

(** ASCII strings and their lower-case form. *)
Fixpoint isASCII (s : string) : bool :=
  match s with
  | EmptyString => true
  | String c rest => (strings.byteVal c <? 128) && isASCII rest
  end.

Definition lowerZ (b : Z) : Z :=
  if (65 <=? b) && (b <=? 90) then b + 32 else b.

Definition lowerByte (c : ascii) : ascii :=
  ascii_of_N (Z.to_N (lowerZ (strings.byteVal c))).

Fixpoint lowerASCII (s : string) : string :=
  match s with
  | EmptyString => EmptyString
  | String c rest => String (lowerByte c) (lowerASCII rest)
  end.

(** ** ConnectionRole

    [type ConnectionRole int], its four constants numbered from [iota + 1],
    and its [String] method. *)
Definition ConnectionRole : Type := Z.

Definition ConnectionRoleActive : ConnectionRole := 0 + 1.
Definition ConnectionRolePassive : ConnectionRole := 1 + 1.
Definition ConnectionRoleActpass : ConnectionRole := 2 + 1.
Definition ConnectionRoleHoldconn : ConnectionRole := 3 + 1.

Definition ConnectionRole_String (t : ConnectionRole) : string :=
  if t =? ConnectionRoleActive then "active"
  else if t =? ConnectionRolePassive then "passive"
  else if t =? ConnectionRoleActpass then "actpass"
  else if t =? ConnectionRoleHoldconn then "holdconn"
  else "Unknown".

(** ** Codec.String

    [fmt.Sprintf] with the verbs of the format: [%d] of an unsigned integer
    is its decimal digits, without sign or padding; [%s] is the string as it
    is. *)
Module fmt.

(** [%d] of a [uint8] or [uint32]. *)
Definition decimal (n : Z) : string :=
  DecimalString.NilEmpty.string_of_uint (N.to_uint (Z.to_N n)).

End fmt.

(** [strings.Join(elems, sep)] *)
Fixpoint Join (elems : list string) (sep : string) : string :=
  match elems with
  | [] => ""
  | [x] => x
  | x :: rest => (x ++ sep ++ Join rest sep)%string
  end.

(** [c.String()]: the format ["%d %s/%d/%s (%s) [%s]"]. *)
Definition Codec_String (c : Codec) : string :=
  (fmt.decimal (PayloadType c) ++ " " ++ Name c ++ "/"
   ++ fmt.decimal (ClockRate c) ++ "/" ++ EncodingParameters c
   ++ " (" ++ Fmtp c ++ ") [" ++ Join (RTCPFeedback c) ", " ++ "]")%string.

(** The part of the rendering in front of the fmtp: payload type, name,
    clock rate and encoding parameters, as an rtpmap attribute writes
    them. *)
Definition rtpmapBody (c : Codec) : string :=
  (fmt.decimal (PayloadType c) ++ " " ++ Name c ++ "/"
   ++ fmt.decimal (ClockRate c) ++ "/" ++ EncodingParameters c)%string.

(** Two rtpmap and two fmtp attributes for one payload type. *)
Definition sessionTwice : SessionDescription :=
  session [attr "rtpmap" "96 opus/48000/2"; attr "fmtp" "96 a=1";
           attr "rtpmap" "96 VP8/90000"; attr "fmtp" "96 b=2"].

(** The first string of a list that is not empty, the empty string when
    there is none; the same for numbers and zero. *)
Fixpoint firstNonEmpty (l : list string) : string :=
  match l with
  | [] => ""
  | x :: rest => if String.eqb x "" then firstNonEmpty rest else x
  end.

Fixpoint firstNonZero (l : list Z) : Z :=
  match l with
  | [] => 0
  | x :: rest => if x =? 0 then firstNonZero rest else x
  end.

(** What the merge for payload type [pt] starts from and is fed with: the
    static codec of [pt], if there is one, then the fragments for [pt] in
    encounter order. *)
Definition contributions (pt : Z) (s : SessionDescription) : list Codec :=
  option_list (staticCodecs !! pt) ++ fragmentsFor pt s.

(** A codec whose payload type fits a [uint8] and whose clock rate fits a
    [uint32]. *)
Definition inRange (c : Codec) : Prop :=
  0 <= PayloadType c <= 255 /\ 0 <= ClockRate c <= 2 ^ 32 - 1.

(** What a single lookup contributes to the list query. *)
Definition found (pt : Z) (s : SessionDescription) : option Codec :=
  match resultOf (GetCodecForPayloadType pt) s with
  | (codec, None) => Some codec
  | (_, Some _) => None
  end.

(** * Properties *)

(** ** The library model on sample inputs *)

Example Split_fmtp : strings.Split "a=2; b=1" ";" = ["a=2"; " b=1"].
Proof. reflexivity. Qed.

Example Split_empty : strings.Split "" ";" = [""].
Proof. reflexivity. Qed.

Example Split_trailing : strings.Split "a;" ";" = ["a"; ""].
Proof. reflexivity. Qed.

Example SplitN_keeps_rest :
  strings.SplitN "fmtp:96 a=2; b=1" " " 2 = ["fmtp:96"; "a=2; b=1"].
Proof. reflexivity. Qed.

Example SplitN_no_separator : strings.SplitN "fmtp:96" " " 2 = ["fmtp:96"].
Proof. reflexivity. Qed.

Example TrimSpace_ascii :
  strings.TrimSpace (String "009" "  b=1 " ++ String "013" (String "010" ""))
  = "b=1".
Proof. reflexivity. Qed.

Example TrimSpace_inner : strings.TrimSpace " a b " = "a b".
Proof. reflexivity. Qed.

Example ParseUint_range : strconv.ParseUint "256" 8 = (255, Some strconvErrRange).
Proof. reflexivity. Qed.

(** The digit that leaves the width ends the loop: what follows it is not
    read. *)
Example ParseUint_range_first :
  strconv.ParseUint "256x" 8 = (255, Some strconvErrRange).
Proof. reflexivity. Qed.

Example ParseUint_syntax_first :
  strconv.ParseUint "25x6" 8 = (0, Some strconvErrSyntax).
Proof. reflexivity. Qed.

(** Twenty digits that wrap a [uint64], and twenty-one. *)
Example ParseUint_wrap :
  strconv.ParseUint "18446744073709551616" 32
  = (4294967295, Some strconvErrRange).
Proof. reflexivity. Qed.

Example ParseUint_cutoff :
  strconv.ParseUint "184467440737095516150" 32
  = (4294967295, Some strconvErrRange).
Proof. reflexivity. Qed.

Example ParseUint_leading_zero : strconv.ParseUint "096" 8 = (96, None).
Proof. reflexivity. Qed.

Example ParseUint_sign : strconv.ParseUint "+96" 8 = (0, Some strconvErrSyntax).
Proof. reflexivity. Qed.

Example ParseUint_empty : strconv.ParseUint "" 8 = (0, Some strconvErrSyntax).
Proof. reflexivity. Qed.

Example Strings_space_first : sort.Strings ["a=2"; " b=1"] = [" b=1"; "a=2"].
Proof. reflexivity. Qed.

(** ** The decoders on sample inputs *)

Example parseRtpmap_full :
  parseRtpmap "rtpmap:111 opus/48000/2"
  = (mkCodec 111 "opus" 48000 "2" "" [], None).
Proof. reflexivity. Qed.

Example parseRtpmap_bad_rate :
  parseRtpmap "rtpmap:97 VP8/fast"
  = (mkCodec 97 "VP8" 0 "" "" [], Some errExtractCodecRtpmap).
Proof. reflexivity. Qed.

Example parseRtpmap_two_spaces :
  parseRtpmap "rtpmap:97  VP8/90000" = (zeroCodec, Some errExtractCodecRtpmap).
Proof. reflexivity. Qed.

Example parseFmtp_keeps_spaces :
  parseFmtp "fmtp:96 a=2; b=1" = (mkCodec 96 "" 0 "" "a=2; b=1" [], None).
Proof. reflexivity. Qed.

Example parseRtcpFb_parameter :
  parseRtcpFb "rtcp-fb:97 nack pli"
  = (mkCodec 97 "" 0 "" "" ["nack pli"], false, None).
Proof. reflexivity. Qed.

Example parseRtcpFb_wildcard :
  parseRtcpFb "rtcp-fb:* nack" = (mkCodec 0 "" 0 "" "" ["nack"], true, None).
Proof. reflexivity. Qed.

Example parseRtcpFb_range :
  parseRtcpFb "rtcp-fb:256 nack" = (zeroCodec, false, Some strconvErrRange).
Proof. reflexivity. Qed.

(** ** Session identifiers *)

Lemma session_mask : uint64 (Z.lnot (Z.shiftl (uint64 1) 63)) = Z.ones 63.
Proof. reflexivity. Qed.

(** C8. [newSessionID] hands back a value below 2^63, that is with bit 63
    clear, whose lower 63 bits are those of the random 64-bit value, and the
    error of the random source as it is. *)
Theorem newSessionID_top_bit_clear {E : Type} (id : Z) (err : option E) :
  0 <= id < 2 ^ 64 ->
  0 <= fst (newSessionID (id, err)) < 2 ^ 63
  /\ Z.testbit (fst (newSessionID (id, err))) 63 = false
  /\ fst (newSessionID (id, err)) = id mod 2 ^ 63
  /\ snd (newSessionID (id, err)) = err.
Proof.
  intros _. unfold newSessionID. cbn [fst snd].
  rewrite session_mask, Z.land_ones by lia.
  assert (Hb : 0 <= id mod 2 ^ 63 < 2 ^ 63) by (apply Z.mod_pos_bound; lia).
  repeat split; try lia.
  rewrite Z.testbit_mod_pow2 by lia.
  rewrite Z.ltb_irrefl. reflexivity.
Qed.

Lemma newSessionID_top_bit_clear_witness :
  0 <= fst (newSessionID (2 ^ 64 - 1, Some errFieldMissing)) < 2 ^ 63
  /\ Z.testbit (fst (newSessionID (2 ^ 64 - 1, Some errFieldMissing))) 63
     = false
  /\ fst (newSessionID (2 ^ 64 - 1, Some errFieldMissing))
     = (2 ^ 64 - 1) mod 2 ^ 63
  /\ snd (newSessionID (2 ^ 64 - 1, Some errFieldMissing))
     = Some errFieldMissing.
Proof. apply (newSessionID_top_bit_clear (2 ^ 64 - 1)). lia. Defined.

(** ** Splitting *)

Lemma append_cons (y : ascii) (a b : string) :
  (String y a ++ b)%string = String y (a ++ b)%string.
Proof. reflexivity. Qed.

Lemma append_nil (b : string) : ("" ++ b)%string = b.
Proof. reflexivity. Qed.

Lemma append_assoc_byte (cur : string) (x : ascii) (s : string) :
  ((cur ++ String x "") ++ s)%string = (cur ++ String x s)%string.
Proof.
  induction cur as [|y cur IH]; [reflexivity|].
  rewrite !append_cons. now f_equal.
Qed.

Lemma append_assoc (a b c : string) :
  ((a ++ b) ++ c)%string = (a ++ (b ++ c))%string.
Proof.
  induction a as [|y a IH]; [reflexivity|].
  rewrite !append_cons. now f_equal.
Qed.

Lemma append_empty_r (s : string) : (s ++ "")%string = s.
Proof.
  induction s as [|y s IH]; [reflexivity|].
  rewrite append_cons. now f_equal.
Qed.

(** Without the separator there is nothing to cut. *)
Lemma genSplit_noByte sep budget (s cur : string) :
  noByte sep s = true ->
  strings.genSplit sep budget cur s = [(cur ++ s)%string].
Proof.
  revert cur. induction s as [|x s IH]; intros cur H; cbn.
  - now rewrite append_empty_r.
  - cbn in H. apply andb_prop in H as [Hx Hs].
    apply negb_true_iff in Hx. rewrite Hx.
    destruct budget as [[|k]|]; try reflexivity;
      rewrite IH by assumption; now rewrite append_assoc_byte.
Qed.

(** The first cut falls at the first separator. *)
Lemma genSplit_cut sep (a rest cur : string) :
  noByte sep a = true ->
  strings.genSplit sep None cur (a ++ String sep rest)
  = (cur ++ a)%string :: strings.genSplit sep None "" rest.
Proof.
  revert cur. induction a as [|x a IH]; intros cur H;
    rewrite ?append_cons, ?append_nil; cbn.
  - rewrite Ascii.eqb_refl. now rewrite append_empty_r.
  - cbn in H. apply andb_prop in H as [Hx Ha].
    apply negb_true_iff in Hx. rewrite Hx.
    rewrite IH by assumption. now rewrite append_assoc_byte.
Qed.

Lemma Split_two sep (a b : string) :
  noByte sep a = true -> noByte sep b = true ->
  strings.Split (a ++ String sep b) sep = [a; b].
Proof.
  intros Ha Hb. unfold strings.Split.
  rewrite genSplit_cut by assumption. now rewrite genSplit_noByte.
Qed.

Lemma Split_one sep (a : string) :
  noByte sep a = true -> strings.Split a sep = [a].
Proof. intros Ha. unfold strings.Split. now rewrite genSplit_noByte. Qed.

Lemma noByte_append c (a b : string) :
  noByte c (a ++ b) = noByte c a && noByte c b.
Proof.
  induction a as [|x a IH]; [reflexivity|].
  rewrite append_cons. cbn. rewrite IH. now rewrite andb_assoc.
Qed.

(** ** Decimal numbers *)

Lemma digits_noByte (c : ascii) (s : string) (acc v : Z) :
  strconv.digit c = None ->
  strconv.digits acc s = Some v -> noByte c s = true.
Proof.
  intros Hc. revert acc. induction s as [|x s IH]; intros acc H; cbn in *.
  - reflexivity.
  - destruct (strconv.digit x) as [d|] eqn:Hd; [|discriminate].
    rewrite (IH _ H), andb_true_r. apply negb_true_iff.
    destruct (Ascii.eqb_spec x c) as [->|]; [congruence | reflexivity].
Qed.

Lemma digit_range (c : ascii) (d : Z) :
  strconv.digit c = Some d -> 0 <= d <= 9.
Proof.
  unfold strconv.digit. cbn zeta.
  destruct (_ && _) eqn:H; [|discriminate].
  intros [= <-]. apply andb_prop in H as [H1 H2]. lia.
Qed.

Lemma digits_nonneg (s : string) (acc v : Z) :
  0 <= acc -> strconv.digits acc s = Some v -> 0 <= v.
Proof.
  revert acc. induction s as [|x s IH]; intros acc Hacc H; cbn in *.
  - congruence.
  - destruct (strconv.digit x) as [d|] eqn:Hd; [|discriminate].
    apply digit_range in Hd. apply (IH (acc * 10 + d)); [lia | assumption].
Qed.

Lemma digits_grows (s : string) (acc v : Z) :
  0 <= acc -> strconv.digits acc s = Some v -> acc <= v.
Proof.
  revert acc. induction s as [|x s IH]; intros acc Hacc H; cbn in *.
  - injection H as <-. lia.
  - destruct (strconv.digit x) as [d|] eqn:Hd; [|discriminate].
    apply digit_range in Hd. apply IH in H; lia.
Qed.

Lemma cutoff_value : strconv.cutoff = 1844674407370955162.
Proof. reflexivity. Qed.

(** One step of the loop that does not stop: the value neither wrapped nor
    left the width. *)
Lemma parseLoop_step (maxVal n d : Z) :
  0 <= n -> 0 <= d <= 9 ->
  (strconv.cutoff <=? n) = false ->
  (uint64 (n * 10 + d) <? n * 10) || (maxVal <? uint64 (n * 10 + d)) = false ->
  uint64 (n * 10 + d) = n * 10 + d /\ n * 10 + d <= maxVal.
Proof.
  intros Hn Hd Hcut Hchk. rewrite cutoff_value in Hcut.
  apply Z.leb_gt in Hcut. apply orb_false_iff in Hchk as [Hwrap Hmax].
  apply Z.ltb_ge in Hwrap, Hmax. unfold uint64 in *.
  destruct (Z.ltb_spec (n * 10 + d) (2 ^ 64)) as [Hlt|Hge].
  - rewrite Z.mod_small in * by lia. lia.
  - exfalso.
    replace (n * 10 + d) with ((n * 10 + d - 2 ^ 64) + 1 * 2 ^ 64) in Hwrap
      by lia.
    rewrite Z.mod_add, Z.mod_small in Hwrap by lia. lia.
Qed.

(** A loop that ends without error has read a run of digits, whose value is
    what it returns and fits the width. *)
Lemma parseLoop_ok (maxVal : Z) (s : string) (n v : Z) :
  0 <= n -> n <= maxVal ->
  strconv.parseLoop maxVal n s = (v, None) ->
  strconv.digits n s = Some v /\ v <= maxVal.
Proof.
  revert n. induction s as [|x s IH]; intros n Hn Hmax; cbn.
  - intros [= <-]. split; [reflexivity | assumption].
  - destruct (strconv.digit x) as [d|] eqn:Hd; [|discriminate].
    apply digit_range in Hd.
    destruct (strconv.cutoff <=? n) eqn:Hcut; [discriminate|].
    destruct ((uint64 (n * 10 + d) <? n * 10)
              || (maxVal <? uint64 (n * 10 + d))) eqn:Hchk; [discriminate|].
    destruct (parseLoop_step maxVal n d Hn Hd Hcut Hchk) as [-> Hle].
    apply IH; lia.
Qed.

(** A run of digits whose value fits the width and a [uint64] is read
    without error. *)
Lemma parseLoop_digits (maxVal : Z) (s : string) (n v : Z) :
  0 <= n -> maxVal <= 2 ^ 64 - 1 ->
  strconv.digits n s = Some v -> v <= maxVal ->
  strconv.parseLoop maxVal n s = (v, None).
Proof.
  revert n. induction s as [|x s IH]; intros n Hn H64 Hdig Hv; cbn in *.
  - now injection Hdig as <-.
  - destruct (strconv.digit x) as [d|] eqn:Hd; [|discriminate].
    apply digit_range in Hd.
    assert (Hgrow : n * 10 + d <= v)
      by (apply (digits_grows s); [lia | exact Hdig]).
    rewrite cutoff_value.
    destruct (Z.leb_spec 1844674407370955162 n); [lia|].
    unfold uint64. rewrite Z.mod_small by lia.
    destruct (Z.ltb_spec (n * 10 + d) (n * 10)); [lia|].
    destruct (Z.ltb_spec maxVal (n * 10 + d)); [lia|].
    cbn. apply IH; try assumption. lia.
Qed.

(** What a successful [ParseUint] tells about its argument. *)
Lemma ParseUint_ok (s : string) (bitSize v : Z) :
  strconv.ParseUint s bitSize = (v, None) ->
  0 <= v <= 2 ^ bitSize - 1
  /\ noByte " " s = true /\ noByte ":" s = true /\ noByte "/" s = true.
Proof.
  unfold strconv.ParseUint. destruct s as [|x s]; [discriminate|].
  intros H.
  assert (Hmax : 0 <= 2 ^ bitSize - 1).
  { cbn in H. destruct (strconv.digit x) as [d|] eqn:Hd; [|discriminate].
    apply digit_range in Hd.
    destruct (strconv.cutoff <=? 0) eqn:Hcut; [discriminate|].
    destruct ((uint64 (0 * 10 + d) <? 0 * 10)
              || (2 ^ bitSize - 1 <? uint64 (0 * 10 + d))) eqn:Hchk;
      [discriminate|].
    destruct (parseLoop_step _ 0 d ltac:(lia) Hd Hcut Hchk) as [_ Hle]. lia. }
  apply parseLoop_ok in H as [Hd Hle]; [|lia|assumption].
  repeat split.
  - eapply digits_nonneg; [|exact Hd]. lia.
  - lia.
  - eapply digits_noByte; [reflexivity | exact Hd].
  - eapply digits_noByte; [reflexivity | exact Hd].
  - eapply digits_noByte; [reflexivity | exact Hd].
Qed.

(** ** Decoding rtpmap *)

(** C10. An rtpmap attribute whose codec description has no '/' decodes
    without error: the codec carries the payload type, the whole description
    as its name, clock rate 0 and no encoding parameters. It holds for every
    key without space or colon, every payload type that parses as a [uint8]
    and every description without space or slash, [rtpmap:96 opus] being
    one. *)
Theorem parseRtpmap_without_clock_rate (key pt name : string) (n : Z) :
  noByte " " key = true -> noByte ":" key = true ->
  strconv.ParseUint pt 8 = (n, None) ->
  noByte " " name = true -> noByte "/" name = true ->
  parseRtpmap (key ++ ":" ++ pt ++ " " ++ name)
  = (mkCodec n name 0 "" "" [], None).
Proof.
  intros Hk1 Hk2 Hpt Hn1 Hn2.
  destruct (ParseUint_ok _ _ _ Hpt) as (Hrange & Hp1 & Hp2 & _).
  unfold parseRtpmap.
  replace (key ++ ":" ++ pt ++ " " ++ name)%string
    with ((key ++ ":" ++ pt) ++ String " " name)%string.
  2:{ change (":" ++ pt)%string with (String ":" "" ++ pt)%string.
      change (" " ++ name)%string with (String " " "" ++ name)%string.
      change (String " " name) with (String " " "" ++ name)%string.
      now rewrite !append_assoc. }
  rewrite Split_two; [| |assumption].
  2:{ rewrite noByte_append, Hk1. cbn. exact Hp1. }
  change (key ++ ":" ++ pt)%string with (key ++ String ":" pt)%string.
  rewrite Split_two by assumption.
  rewrite Hpt, Split_one by assumption.
  cbn. unfold setName, setPayloadType, uint8. cbn.
  rewrite Z.mod_small by lia. reflexivity.
Qed.

Lemma parseRtpmap_without_clock_rate_witness :
  parseRtpmap "rtpmap:96 opus" = (mkCodec 96 "opus" 0 "" "" [], None).
Proof.
  apply (parseRtpmap_without_clock_rate "rtpmap" "96" "opus" 96);
    reflexivity.
Defined.

(** ** Merging *)

Lemma keyed_static : keyed staticCodecs.
Proof.
  intros k c. unfold staticCodecs.
  rewrite !lookup_insert. repeat case_decide; subst;
    [intros [= <-]; reflexivity.. | rewrite lookup_empty; discriminate].
Qed.

(** On a keyed map [mergeCodecs] rewrites the entry of the fragment's
    payload type and no other. *)
Lemma mergeCodecs_keyed (codec : Codec) (codecs : gmap Z Codec) :
  keyed codecs ->
  mergeCodecs codec codecs
  = <[PayloadType codec :=
        mergeFields (default zeroCodec (codecs !! PayloadType codec)) codec]>
      codecs.
Proof.
  intros Hk. unfold mergeCodecs, mergeFields, firstString, firstZ.
  assert (Hpt : PayloadType (default zeroCodec (codecs !! PayloadType codec))
                = PayloadType codec
                \/ PayloadType (default zeroCodec (codecs !! PayloadType codec))
                   = 0).
  { destruct (codecs !! PayloadType codec) as [saved|] eqn:Hs; cbn.
    - left. now apply Hk in Hs.
    - now right. }
  destruct (default zeroCodec (codecs !! PayloadType codec))
    as [p n r e f fb].
  cbn in Hpt. cbn -[Z.eqb String.eqb].
  assert (Hp : PayloadType (if p =? 0
                            then setPayloadType (PayloadType codec)
                                   (mkCodec p n r e f fb)
                            else mkCodec p n r e f fb) = PayloadType codec).
  { destruct (Z.eqb_spec p 0); cbn; [reflexivity | lia]. }
  destruct (p =? 0); cbn -[Z.eqb String.eqb] in *;
    destruct (String.eqb n ""); cbn -[Z.eqb String.eqb];
    destruct (r =? 0); cbn -[Z.eqb String.eqb];
    destruct (String.eqb e ""); cbn -[Z.eqb String.eqb];
    destruct (String.eqb f ""); cbn -[Z.eqb String.eqb];
    rewrite ?Hp; reflexivity.
Qed.

Lemma mergeCodecs_preserves_keyed codec codecs :
  keyed codecs -> keyed (mergeCodecs codec codecs).
Proof.
  intros Hk. rewrite mergeCodecs_keyed by assumption.
  intros k c. rewrite lookup_insert. case_decide.
  - intros [= <-]. subst k. reflexivity.
  - apply Hk.
Qed.

Lemma mergeAll_keyed frags codecs : keyed codecs -> keyed (mergeAll codecs frags).
Proof.
  revert codecs. induction frags as [|c frags IH]; intros codecs Hk; cbn.
  - assumption.
  - apply IH. now apply mergeCodecs_preserves_keyed.
Qed.

(** The entry of one payload type after a run of merges: the fold of
    [mergeFields] over the fragments that carry that payload type. *)
Lemma mergeAll_lookup frags codecs pt :
  keyed codecs ->
  mergeAll codecs frags !! pt
  = foldl (fun o c => Some (mergeFields (default zeroCodec o) c))
      (codecs !! pt) (filter (fun c => PayloadType c = pt) frags).
Proof.
  revert codecs. induction frags as [|c frags IH]; intros codecs Hk.
  - reflexivity.
  - cbn [mergeAll foldl]. fold (mergeAll (mergeCodecs c codecs) frags).
    rewrite IH by now apply mergeCodecs_preserves_keyed.
    rewrite mergeCodecs_keyed by assumption.
    rewrite filter_cons. case_decide as Hpt.
    + subst pt. rewrite lookup_insert_eq. reflexivity.
    + rewrite lookup_insert_ne by assumption. reflexivity.
Qed.

(** ** The scan as a fold *)

Lemma scanAttribute_fragment (st : scanState) (a : Attribute) :
  scanAttribute st a
  = (from_option (fun c => mergeCodecs c st.1) st.1 (fragment a),
     st.2 ++ wildcardFeedback a).
Proof.
  destruct st as [codecs wild].
  unfold scanAttribute, fragment, wildcardFeedback. cbn [fst snd].
  destruct (strings.HasPrefix _ "rtpmap:").
  { destruct (parseRtpmap _) as [c [e|]]; cbn; now rewrite app_nil_r. }
  destruct (strings.HasPrefix _ "fmtp:").
  { destruct (parseFmtp _) as [c [e|]]; cbn; now rewrite app_nil_r. }
  destruct (strings.HasPrefix _ "rtcp-fb:").
  { destruct (parseRtcpFb _) as [[c [|]] [e|]]; cbn;
      now rewrite ?app_nil_r. }
  cbn. now rewrite app_nil_r.
Qed.

Lemma scanAttributes_fold (attrs : list Attribute) (st : scanState) :
  foldl scanAttribute st attrs
  = (mergeAll st.1 (omap fragment attrs),
     st.2 ++ (attrs ≫= wildcardFeedback)).
Proof.
  revert st. induction attrs as [|a attrs IH]; intros st.
  - destruct st. cbn. now rewrite app_nil_r.
  - cbn [foldl]. rewrite IH, scanAttribute_fragment. cbn [fst snd].
    rewrite bind_cons, app_assoc. f_equal.
    cbn [omap list_omap]. destruct (fragment a); reflexivity.
Qed.

Lemma scanSession_flat (ms : list MediaDescription) (st : scanState) :
  foldl scanMedia st ms = foldl scanAttribute st (ms ≫= Attributes).
Proof.
  revert st. induction ms as [|m ms IH]; intros st; [reflexivity|].
  cbn [foldl]. rewrite bind_cons, foldl_app, IH. reflexivity.
Qed.

(** The two locals at the end of the scan. *)
Lemma scanSession_fold (s : SessionDescription) :
  scanSession (MediaDescriptions s)
  = (mergeAll staticCodecs (omap fragment (allAttributes s)), wildcardsOf s).
Proof.
  unfold scanSession. rewrite scanSession_flat, scanAttributes_fold.
  reflexivity.
Qed.

Lemma buildCodecMap_fold (s : SessionDescription) :
  buildCodecMap s
  = (applyWildcard (wildcardsOf s)
       <$> mergeAll staticCodecs (omap fragment (allAttributes s)), s).
Proof.
  unfold buildCodecMap, mbind, Method_bind, readMediaDescriptions.
  rewrite scanSession_fold. reflexivity.
Qed.

(** ** The wildcard loop in any range order *)

Lemma wildcardLoop_lookup (wild : list string) (order : list (Z * Codec))
      (codecs : gmap Z Codec) (k : Z) :
  NoDup order.*1 ->
  wildcardLoop wild codecs order !! k
  = match list_to_map (M := gmap Z Codec) order !! k with
    | Some c => Some (applyWildcard wild c)
    | None => codecs !! k
    end.
Proof.
  revert codecs. induction order as [|[i c] order IH]; intros codecs Hnd.
  - reflexivity.
  - cbn [wildcardLoop foldl fst snd].
    fold (wildcardLoop wild (<[i:=applyWildcard wild c]> codecs) order).
    rewrite fmap_cons in Hnd. apply NoDup_cons in Hnd as [Hi Hnd].
    rewrite (IH _ Hnd). cbn [list_to_map foldr uncurry].
    destruct (decide (i = k)) as [->|Hne].
    + rewrite lookup_insert_eq.
      rewrite (not_elem_of_list_to_map_1 (M := gmap Z) order k) by exact Hi.
      now rewrite lookup_insert_eq.
    + rewrite !lookup_insert_ne by assumption. reflexivity.
Qed.

(** Whatever the order of the range, the loop maps [applyWildcard] over
    the values: this is how [buildCodecMap] above writes it. *)
Lemma wildcardLoop_any_order (wild : list string) (codecs : gmap Z Codec)
      (order : list (Z * Codec)) :
  order ≡ₚ map_to_list codecs ->
  wildcardLoop wild codecs order = applyWildcard wild <$> codecs.
Proof.
  intros Hperm. apply map_eq. intros k.
  assert (Hnd : NoDup order.*1).
  { rewrite Hperm. apply NoDup_fst_map_to_list. }
  rewrite wildcardLoop_lookup by assumption.
  assert (Hmap : list_to_map (M := gmap Z Codec) order = codecs).
  { transitivity (list_to_map (M := gmap Z Codec) (map_to_list codecs)).
    - now apply list_to_map_proper.
    - apply list_to_map_to_list. }
  rewrite Hmap, lookup_fmap. destruct (codecs !! k); reflexivity.
Qed.

(** ** Appending feedback *)

Lemma existsb_eqb_elem (fb : string) (l : list string) :
  existsb (fun x => String.eqb x fb) l = true <-> fb ∈ l.
Proof.
  rewrite existsb_exists. split.
  - intros (x & Hin & Heq). apply String.eqb_eq in Heq. subst x.
    now apply list_elem_of_In.
  - intros Hin. exists fb. split; [now apply list_elem_of_In|].
    apply String.eqb_refl.
Qed.

Lemma appendRTCPFeedback_present (c : Codec) (fb : string) :
  fb ∈ RTCPFeedback c -> appendRTCPFeedback c fb = c.
Proof.
  intros H. unfold appendRTCPFeedback.
  apply existsb_eqb_elem in H. now rewrite H.
Qed.

Lemma appendRTCPFeedback_absent (c : Codec) (fb : string) :
  fb ∉ RTCPFeedback c ->
  appendRTCPFeedback c fb = setRTCPFeedback (RTCPFeedback c ++ [fb]) c.
Proof.
  intros H. unfold appendRTCPFeedback.
  destruct (existsb _ _) eqn:He; [|reflexivity].
  apply existsb_eqb_elem in He. contradiction.
Qed.

(** The wildcard loop touches the feedback list alone, and it extends the
    list at the end by the wildcard strings that are not there yet, each
    once, in the order of their first occurrence. *)
Lemma applyWildcard_spec (wild : list string) (c : Codec) :
  exists added : list string,
    applyWildcard wild c = setRTCPFeedback (RTCPFeedback c ++ added) c
    /\ NoDup added
    /\ (forall fb, fb ∈ added <-> fb ∈ wild /\ fb ∉ RTCPFeedback c).
Proof.
  revert c. induction wild as [|w wild IH]; intros c.
  - exists []. split; [|split].
    + destruct c; cbn. now rewrite app_nil_r.
    + apply NoDup_nil_2.
    + intros fb. rewrite !elem_of_nil. tauto.
  - cbn [applyWildcard foldl]. fold (applyWildcard wild (appendRTCPFeedback c w)).
    destruct (decide (w ∈ RTCPFeedback c)) as [Hin|Hout].
    + rewrite appendRTCPFeedback_present by assumption.
      destruct (IH c) as (added & -> & Hnd & Hiff).
      exists added. split; [reflexivity|]. split; [assumption|].
      intros fb. rewrite Hiff, elem_of_cons. split; [tauto|].
      intros [[->|?] ?]; [contradiction | tauto].
    + rewrite appendRTCPFeedback_absent by assumption.
      destruct (IH (setRTCPFeedback (RTCPFeedback c ++ [w]) c))
        as (added & -> & Hnd & Hiff).
      cbn [RTCPFeedback setRTCPFeedback] in *.
      exists (w :: added). split; [|split].
      * unfold setRTCPFeedback. cbn. now rewrite <- app_assoc.
      * apply NoDup_cons. split; [|assumption]. rewrite Hiff, elem_of_app, list_elem_of_singleton.
        tauto.
      * intros fb. rewrite !elem_of_cons, Hiff, elem_of_app, list_elem_of_singleton.
        destruct (decide (fb = w)) as [->|]; tauto.
Qed.

Lemma applyWildcard_scalars (wild : list string) (c : Codec) :
  PayloadType (applyWildcard wild c) = PayloadType c
  /\ Name (applyWildcard wild c) = Name c
  /\ ClockRate (applyWildcard wild c) = ClockRate c
  /\ EncodingParameters (applyWildcard wild c) = EncodingParameters c
  /\ Fmtp (applyWildcard wild c) = Fmtp c.
Proof.
  destruct (applyWildcard_spec wild c) as (added & -> & _). now cbn.
Qed.

Lemma applyWildcard_elem (wild : list string) (c : Codec) (fb : string) :
  fb ∈ RTCPFeedback (applyWildcard wild c)
  <-> fb ∈ RTCPFeedback c \/ fb ∈ wild.
Proof.
  destruct (applyWildcard_spec wild c) as (added & -> & _ & Hiff).
  cbn. rewrite elem_of_app, Hiff.
  destruct (decide (fb ∈ RTCPFeedback c)); tauto.
Qed.

Lemma applyWildcard_NoDup (wild : list string) (c : Codec) :
  NoDup (RTCPFeedback c) -> NoDup (RTCPFeedback (applyWildcard wild c)).
Proof.
  intros Hc. destruct (applyWildcard_spec wild c) as (added & -> & Hnd & Hiff).
  cbn. apply NoDup_app. split; [assumption|]. split; [|assumption].
  intros fb Hin Hadd. apply Hiff in Hadd. tauto.
Qed.

(** ** Entries of the merged map *)

(** The entry of [pt] in the merged map: the fragments for [pt] merged in
    order into the static codec of [pt], if there is one, then the
    wildcard feedback. *)
Lemma buildCodecMap_lookup (s : SessionDescription) (pt : Z) :
  resultOf buildCodecMap s !! pt
  = applyWildcard (wildcardsOf s)
      <$> foldl (fun o c => Some (mergeFields (default zeroCodec o) c))
            (staticCodecs !! pt) (fragmentsFor pt s).
Proof.
  unfold resultOf. rewrite buildCodecMap_fold. cbn [fst].
  rewrite lookup_fmap, mergeAll_lookup by apply keyed_static. reflexivity.
Qed.

Lemma buildCodecMap_after (s : SessionDescription) : sessionAfter buildCodecMap s = s.
Proof. unfold sessionAfter. now rewrite buildCodecMap_fold. Qed.

Lemma GetCodecForPayloadType_result (pt : Z) (s : SessionDescription) :
  resultOf (GetCodecForPayloadType pt) s
  = match resultOf buildCodecMap s !! pt with
    | Some codec => (codec, None)
    | None => (zeroCodec, Some errPayloadTypeNotFound)
    end.
Proof.
  unfold resultOf, GetCodecForPayloadType, mbind, Method_bind.
  destruct (buildCodecMap s) as [codecs s'] eqn:Hb. cbn [fst].
  destruct (codecs !! pt); reflexivity.
Qed.

(** The feedback list under a fold of merges: the lists of the fragments,
    one after the other. *)
Lemma mergeFields_fold_feedback (frags : list Codec) (o : option Codec) :
  RTCPFeedback
    (default zeroCodec
       (foldl (fun o c => Some (mergeFields (default zeroCodec o) c)) o frags))
  = RTCPFeedback (default zeroCodec o) ++ (frags ≫= RTCPFeedback).
Proof.
  revert o. induction frags as [|c frags IH]; intros o.
  - cbn. now rewrite app_nil_r.
  - cbn [foldl]. rewrite IH. cbn. now rewrite <- app_assoc.
Qed.

Lemma static_feedback (pt : Z) :
  RTCPFeedback (default zeroCodec (staticCodecs !! pt)) = [].
Proof.
  unfold staticCodecs. rewrite !lookup_insert.
  repeat case_decide; reflexivity.
Qed.

Lemma fold_mergeFields_Some (frags : list Codec) (c : Codec) :
  exists c',
    foldl (fun o c => Some (mergeFields (default zeroCodec o) c)) (Some c) frags
    = Some c'.
Proof.
  revert c. induction frags as [|f frags IH]; intros c; cbn [foldl]; eauto.
Qed.

(** A successful lookup, unfolded: the codec is the merge of the fragments
    for its payload type, with the wildcard feedback applied. *)
Lemma GetCodecForPayloadType_found (pt : Z) (s : SessionDescription) (c : Codec) :
  resultOf (GetCodecForPayloadType pt) s = (c, None) <->
  exists c0,
    foldl (fun o c => Some (mergeFields (default zeroCodec o) c))
      (staticCodecs !! pt) (fragmentsFor pt s) = Some c0
    /\ c = applyWildcard (wildcardsOf s) c0.
Proof.
  rewrite GetCodecForPayloadType_result, buildCodecMap_lookup.
  destruct (foldl _ _ _) as [c0|]; cbn; split.
  - intros [= <-]. eauto.
  - intros (c1 & [= <-] & ->). reflexivity.
  - discriminate.
  - intros (c1 & [=] & _).
Qed.

(** What [mergeCodecs] does to the feedback list: plain concatenation. *)
Lemma mergeCodecs_feedback (codec : Codec) (codecs : gmap Z Codec) :
  exists k c',
    mergeCodecs codec codecs = <[k := c']> codecs
    /\ RTCPFeedback c'
       = RTCPFeedback (default zeroCodec (codecs !! PayloadType codec))
         ++ RTCPFeedback codec.
Proof.
  unfold mergeCodecs. eexists _, _. split; [reflexivity|].
  destruct (default zeroCodec (codecs !! PayloadType codec))
    as [p n r e f fb].
  cbn -[Z.eqb String.eqb].
  destruct (p =? 0); cbn -[Z.eqb String.eqb];
    destruct (String.eqb n ""); cbn -[Z.eqb String.eqb];
    destruct (r =? 0); cbn -[Z.eqb String.eqb];
    destruct (String.eqb e ""); cbn -[Z.eqb String.eqb];
    destruct (String.eqb f ""); reflexivity.
Qed.

(** ** Fragments *)

Lemma parseRtpmap_feedback (s : string) :
  RTCPFeedback (parseRtpmap s).1 = [].
Proof.
  unfold parseRtpmap.
  destruct (strings.Split s " ") as [|s0 [|s1 [|? ?]]]; try reflexivity.
  destruct (strings.Split s0 ":") as [|p0 [|p1 [|? ?]]]; try reflexivity.
  destruct (strconv.ParseUint p1 8) as [pt [e|]]; [reflexivity|].
  cbn zeta.
  destruct (1 <? _); [|destruct (2 <? _); reflexivity].
  destruct (strconv.ParseUint _ 32) as [rate [e|]]; [reflexivity|].
  destruct (2 <? _); reflexivity.
Qed.

Lemma parseFmtp_feedback (s : string) : RTCPFeedback (parseFmtp s).1 = [].
Proof.
  unfold parseFmtp.
  destruct (strings.SplitN s " " 2) as [|s0 [|s1 [|? ?]]]; try reflexivity.
  destruct (strings.Split s0 ":") as [|p0 [|p1 [|? ?]]]; try reflexivity.
  destruct (strconv.ParseUint p1 8) as [pt [e|]]; reflexivity.
Qed.

Lemma parseRtcpFb_feedback (s : string) (c : Codec) (wildcard : bool) :
  parseRtcpFb s = (c, wildcard, None) -> exists fb, RTCPFeedback c = [fb].
Proof.
  unfold parseRtcpFb.
  destruct (strings.SplitN s " " 2) as [|s0 [|s1 [|? ?]]]; try discriminate.
  destruct (strings.Split s0 ":") as [|p0 [|p1 [|? ?]]]; try discriminate.
  cbn zeta. destruct (String.eqb p1 "*"); cbn [negb].
  - intros [= <- _]. cbn. eauto.
  - destruct (strconv.ParseUint p1 8) as [pt [e|]]; [discriminate|].
    intros [= <- _]. cbn. eauto.
Qed.

(** Only the fragment of an rtcp-fb attribute carries feedback: one
    string. *)
Lemma fragment_feedback (a : Attribute) (c : Codec) :
  fragment a = Some c ->
  RTCPFeedback c = []
  \/ (strings.HasPrefix (Attribute_String a) "rtcp-fb:" = true
      /\ exists fb, RTCPFeedback c = [fb]).
Proof.
  unfold fragment. cbn zeta.
  destruct (strings.HasPrefix _ "rtpmap:").
  { pose proof (parseRtpmap_feedback (Attribute_String a)) as H.
    destruct (parseRtpmap _) as [c' [e|]]; [discriminate|].
    intros [= <-]. now left. }
  destruct (strings.HasPrefix _ "fmtp:").
  { pose proof (parseFmtp_feedback (Attribute_String a)) as H.
    destruct (parseFmtp _) as [c' [e|]]; [discriminate|].
    intros [= <-]. now left. }
  destruct (strings.HasPrefix _ "rtcp-fb:"); [|discriminate].
  destruct (parseRtcpFb _) as [[c' [|]] [e|]] eqn:Hp; try discriminate.
  intros [= <-]. right. split; [reflexivity|].
  eapply parseRtcpFb_feedback. exact Hp.
Qed.

(** ** Feedback lists *)

(** C2. The code at the failing input: the same rtcp-fb line twice for
    payload type 96 leaves the string twice in the codec that the lookup
    returns, so the stated invariant does not hold of the code. The repeat
    comes from [mergeCodecs], which appends the feedback of the fragment
    without the presence test; [appendRTCPFeedback], which has the test and
    which the scan uses for the wildcard strings, keeps one copy on the same
    two strings, and a repeated wildcard line is returned once. With the two
    lines in two media blocks next to a wildcard line the lookup returns the
    named string twice and the wildcard string once. *)
Lemma repeated_feedback_line_is_kept_twice :
  resultOf (GetCodecForPayloadType 96) sessionRepeated
  = (mkCodec 96 "" 0 "" "" ["nack"; "nack"], None)
  /\ ~ NoDup ["nack"; "nack"]
  /\ ~ (forall (s : SessionDescription) (pt : Z) (c : Codec),
          resultOf (GetCodecForPayloadType pt) s = (c, None) ->
          NoDup (RTCPFeedback c))
  /\ parseRtcpFb "rtcp-fb:96 nack"
     = (mkCodec 96 "" 0 "" "" ["nack"], false, None)
  /\ mergeCodecs (mkCodec 96 "" 0 "" "" ["nack"])
       (mergeCodecs (mkCodec 96 "" 0 "" "" ["nack"]) staticCodecs) !! 96
     = Some (mkCodec 96 "" 0 "" "" ["nack"; "nack"])
  /\ appendRTCPFeedback (mkCodec 96 "" 0 "" "" ["nack"]) "nack"
     = mkCodec 96 "" 0 "" "" ["nack"]
  /\ resultOf (GetCodecForPayloadType 96) sessionRepeatedWildcard
     = (mkCodec 96 "" 0 "" "" ["ccm fir"; "nack"], None)
  /\ resultOf (GetCodecForPayloadType 96) sessionRepeatedBlocks
     = (mkCodec 96 "" 0 "" "" ["nack"; "nack"; "ccm fir"], None).
Proof.
  assert (Hdup : ~ NoDup ["nack"; "nack"]).
  { intros H. apply NoDup_cons in H as [Hnotin _].
    apply Hnotin, list_elem_of_singleton. reflexivity. }
  split; [reflexivity|]. split; [exact Hdup|].
  split; [|repeat split; reflexivity].
  intros H. apply Hdup.
  exact (H sessionRepeated 96 (mkCodec 96 "" 0 "" "" ["nack"; "nack"])
           eq_refl).
Qed.

(** What the code does with feedback, for every session. [mergeCodecs]
    concatenates: every feedback string of the fragment goes to the end of
    the accumulator's list, present there or not. A fragment carries
    feedback only when it comes from an rtcp-fb attribute, and then one
    string. Only the wildcard strings go through the presence test. So the
    list that a lookup returns is the feedback of the attributes that name
    the payload type, in encounter order and with their repeats, then the
    wildcard strings that are not among them, each once. *)
Theorem feedback_concatenated_then_wildcards_deduplicated :
  (forall (codec : Codec) (codecs : gmap Z Codec),
      exists k c',
        mergeCodecs codec codecs = <[k := c']> codecs
        /\ RTCPFeedback c'
           = RTCPFeedback (default zeroCodec (codecs !! PayloadType codec))
             ++ RTCPFeedback codec)
  /\ (forall (a : Attribute) (codec : Codec),
         fragment a = Some codec ->
         RTCPFeedback codec = []
         \/ (strings.HasPrefix (Attribute_String a) "rtcp-fb:" = true
             /\ exists fb, RTCPFeedback codec = [fb]))
  /\ (forall (s : SessionDescription) (pt : Z) (c : Codec),
         resultOf (GetCodecForPayloadType pt) s = (c, None) ->
         exists added : list string,
           RTCPFeedback c = explicitFeedback pt s ++ added
           /\ NoDup added
           /\ (forall fb,
                  fb ∈ added
                  <-> fb ∈ wildcardsOf s /\ fb ∉ explicitFeedback pt s)
           /\ (NoDup (explicitFeedback pt s) -> NoDup (RTCPFeedback c))).
Proof.
  split; [exact mergeCodecs_feedback|]. split; [exact fragment_feedback|].
  intros s pt c Hc.
  apply GetCodecForPayloadType_found in Hc as (c0 & Hc0 & ->).
  assert (Hfb : RTCPFeedback c0 = explicitFeedback pt s).
  { pose proof (mergeFields_fold_feedback (fragmentsFor pt s)
                  (staticCodecs !! pt)) as H.
    rewrite Hc0, static_feedback in H. exact H. }
  destruct (applyWildcard_spec (wildcardsOf s) c0) as (added & Heq & Hnd & Hiff).
  exists added. rewrite <- Hfb. split; [|split; [|split]].
  - rewrite Heq. reflexivity.
  - assumption.
  - exact Hiff.
  - apply applyWildcard_NoDup.
Qed.

Lemma feedback_concatenated_then_wildcards_deduplicated_witness :
  resultOf (GetCodecForPayloadType 97) sessionVP8
  = (mkCodec 97 "VP8" 90000 "" "" ["nack"; "ccm fir"; "goog-remb"], None)
  /\ exists added : list string,
      ["nack"; "ccm fir"; "goog-remb"] = explicitFeedback 97 sessionVP8 ++ added
      /\ NoDup added
      /\ (forall fb,
             fb ∈ added
             <-> fb ∈ wildcardsOf sessionVP8
                 /\ fb ∉ explicitFeedback 97 sessionVP8)
      /\ (NoDup (explicitFeedback 97 sessionVP8)
          -> NoDup ["nack"; "ccm fir"; "goog-remb"]).
Proof.
  split; [reflexivity|].
  apply (proj2 (proj2 feedback_concatenated_then_wildcards_deduplicated)
           sessionVP8 97
           (mkCodec 97 "VP8" 90000 "" "" ["nack"; "ccm fir"; "goog-remb"])).
  reflexivity.
Defined.

(** ** Wildcard feedback *)

Lemma fragment_in_map (s : SessionDescription) (a : Attribute) (codec : Codec) :
  a ∈ allAttributes s -> fragment a = Some codec ->
  exists c, resultOf (GetCodecForPayloadType (PayloadType codec)) s = (c, None).
Proof.
  intros Ha Hf.
  assert (Hin : codec ∈ fragmentsFor (PayloadType codec) s).
  { unfold fragmentsFor. apply list_elem_of_filter. split; [reflexivity|].
    apply list_elem_of_omap. eauto. }
  apply list_elem_of_split in Hin as (l1 & l2 & Hsplit).
  assert (exists c0,
             foldl (fun o c => Some (mergeFields (default zeroCodec o) c))
               (staticCodecs !! PayloadType codec)
               (fragmentsFor (PayloadType codec) s) = Some c0)
    as (c0 & Hc0).
  { rewrite Hsplit, foldl_app. cbn [foldl]. apply fold_mergeFields_Some. }
  exists (applyWildcard (wildcardsOf s) c0).
  apply GetCodecForPayloadType_found. eauto.
Qed.

Lemma wildcardFeedback_in_wildcardsOf (s : SessionDescription) (a : Attribute)
      (fb : string) :
  a ∈ allAttributes s -> fb ∈ wildcardFeedback a -> fb ∈ wildcardsOf s.
Proof. intros Ha Hfb. unfold wildcardsOf. apply list_elem_of_bind. eauto. Qed.

(** C3. Once the scan is over, every codec of the map receives the wildcard
    feedback: the entry that a lookup returns is the entry of the scan with
    the strings of the wildcard list added at the end of its feedback list,
    those already present left out and each new one added once. Hence every
    string that a wildcard rtcp-fb attribute contributes is in the list of
    every codec. With [rtcp-fb:* nack] among the attributes and an rtpmap
    attribute that decodes to payload type 97, the lookup of 97 succeeds and
    its list contains ["nack"]. *)
Theorem wildcard_feedback_reaches_every_codec (s : SessionDescription) :
  (forall (pt : Z) (c : Codec),
      resultOf (GetCodecForPayloadType pt) s = (c, None) ->
      exists (c0 : Codec) (added : list string),
        (scanSession (MediaDescriptions s)).1 !! pt = Some c0
        /\ (scanSession (MediaDescriptions s)).2 = wildcardsOf s
        /\ c = setRTCPFeedback (RTCPFeedback c0 ++ added) c0
        /\ NoDup added
        /\ (forall fb,
               fb ∈ added <-> fb ∈ wildcardsOf s /\ fb ∉ RTCPFeedback c0)
        /\ (forall a fb,
               a ∈ allAttributes s -> fb ∈ wildcardFeedback a ->
               fb ∈ RTCPFeedback c))
  /\ (forall (a : Attribute) (codec : Codec),
         attr "rtcp-fb" "* nack" ∈ allAttributes s ->
         a ∈ allAttributes s ->
         strings.HasPrefix (Attribute_String a) "rtpmap:" = true ->
         parseRtpmap (Attribute_String a) = (codec, None) ->
         PayloadType codec = 97 ->
         exists c,
           resultOf (GetCodecForPayloadType 97) s = (c, None)
           /\ "nack" ∈ RTCPFeedback c).
Proof.
  assert (Hall : forall pt c,
             resultOf (GetCodecForPayloadType pt) s = (c, None) ->
             forall a fb,
               a ∈ allAttributes s -> fb ∈ wildcardFeedback a ->
               fb ∈ RTCPFeedback c).
  { intros pt c Hc a fb Ha Hfb.
    apply GetCodecForPayloadType_found in Hc as (c0 & _ & ->).
    apply applyWildcard_elem. right.
    eapply wildcardFeedback_in_wildcardsOf; eassumption. }
  split.
  - intros pt c Hc. pose proof (Hall pt c Hc) as Hin.
    apply GetCodecForPayloadType_found in Hc as (c0 & Hc0 & ->).
    destruct (applyWildcard_spec (wildcardsOf s) c0)
      as (added & Heq & Hnd & Hiff).
    exists c0, added. rewrite scanSession_fold. cbn [fst snd].
    rewrite mergeAll_lookup by apply keyed_static.
    repeat split; try assumption; apply Hiff; assumption.
  - intros a codec Hnack Ha Hpre Hparse Hpt.
    assert (Hfrag : fragment a = Some codec).
    { unfold fragment. now rewrite Hpre, Hparse. }
    destruct (fragment_in_map s a codec Ha Hfrag) as (c & Hc).
    rewrite Hpt in Hc. exists c. split; [assumption|].
    apply (Hall 97 c Hc (attr "rtcp-fb" "* nack") "nack" Hnack).
    apply list_elem_of_singleton. reflexivity.
Qed.

Lemma wildcard_feedback_reaches_every_codec_witness :
  resultOf (GetCodecForPayloadType 97) sessionWildcard
  = (mkCodec 97 "VP8" 90000 "" "" ["nack"], None)
  /\ (exists (c0 : Codec) (added : list string),
         (scanSession (MediaDescriptions sessionWildcard)).1 !! 97 = Some c0
         /\ (scanSession (MediaDescriptions sessionWildcard)).2
            = wildcardsOf sessionWildcard
         /\ mkCodec 97 "VP8" 90000 "" "" ["nack"]
            = setRTCPFeedback (RTCPFeedback c0 ++ added) c0
         /\ NoDup added
         /\ (forall fb,
                fb ∈ added
                <-> fb ∈ wildcardsOf sessionWildcard /\ fb ∉ RTCPFeedback c0)
         /\ (forall a fb,
                a ∈ allAttributes sessionWildcard ->
                fb ∈ wildcardFeedback a ->
                fb ∈ RTCPFeedback (mkCodec 97 "VP8" 90000 "" "" ["nack"])))
  /\ (exists c,
         resultOf (GetCodecForPayloadType 97) sessionWildcard = (c, None)
         /\ "nack" ∈ RTCPFeedback c).
Proof.
  split; [reflexivity|]. split.
  - apply (proj1 (wildcard_feedback_reaches_every_codec sessionWildcard) 97).
    reflexivity.
  - apply (proj2 (wildcard_feedback_reaches_every_codec sessionWildcard)
             (attr "rtpmap" "97 VP8/90000")
             (mkCodec 97 "VP8" 90000 "" "" [])).
    + apply list_elem_of_In. cbn. tauto.
    + apply list_elem_of_In. cbn. tauto.
    + reflexivity.
    + reflexivity.
    + reflexivity.
Defined.

(** ** First non-empty wins *)

Lemma firstString_kept (saved new : string) :
  saved <> "" -> firstString saved new = saved.
Proof.
  intros H. unfold firstString.
  destruct (String.eqb_spec saved ""); [contradiction | reflexivity].
Qed.

Lemma firstZ_kept (saved new : Z) : saved <> 0 -> firstZ saved new = saved.
Proof. intros H. unfold firstZ. destruct (Z.eqb_spec saved 0); [lia | reflexivity]. Qed.

(** Once a name and a clock rate are set, no later fragment changes them. *)
Lemma fold_mergeFields_keeps (frags : list Codec) (c c' : Codec) :
  Name c <> "" -> ClockRate c <> 0 ->
  foldl (fun o c => Some (mergeFields (default zeroCodec o) c)) (Some c) frags
  = Some c' ->
  Name c' = Name c /\ ClockRate c' = ClockRate c.
Proof.
  revert c. induction frags as [|f frags IH]; intros c Hn Hr; cbn [foldl].
  - intros [= <-]. split; reflexivity.
  - intros H. apply IH in H; cbn [default mergeFields Name ClockRate] in *;
      rewrite ?firstString_kept, ?firstZ_kept in * by assumption;
      assumption.
Qed.

(** C4. Merging a fragment into the map rewrites the entry of the fragment's
    payload type: name, clock rate, encoding parameters and fmtp each take
    the fragment's value when the accumulator's is empty or zero and keep
    the accumulator's otherwise. In particular, when the fragments of a
    session for payload type 99 are those of [rtpmap:99 h263-1998/90000] and
    [fmtp:99 custom=1], in either order, the lookup of 99 returns one codec
    with that name, that clock rate and that fmtp. *)
Theorem merge_fills_empty_scalar_fields :
  (forall (codec : Codec) (codecs : gmap Z Codec),
      keyed codecs ->
      let saved := default zeroCodec (codecs !! PayloadType codec) in
      exists merged : Codec,
        mergeCodecs codec codecs = <[PayloadType codec := merged]> codecs
        /\ Name merged
           = (if String.eqb (Name saved) "" then Name codec else Name saved)
        /\ ClockRate merged
           = (if ClockRate saved =? 0 then ClockRate codec
              else ClockRate saved)
        /\ EncodingParameters merged
           = (if String.eqb (EncodingParameters saved) ""
              then EncodingParameters codec else EncodingParameters saved)
        /\ Fmtp merged
           = (if String.eqb (Fmtp saved) "" then Fmtp codec else Fmtp saved))
  /\ (forall s : SessionDescription,
         keyed (scanSession (MediaDescriptions s)).1)
  /\ (forall s : SessionDescription,
         fragmentsFor 99 s
         = [(parseRtpmap "rtpmap:99 h263-1998/90000").1;
            (parseFmtp "fmtp:99 custom=1").1]
         \/ fragmentsFor 99 s
            = [(parseFmtp "fmtp:99 custom=1").1;
               (parseRtpmap "rtpmap:99 h263-1998/90000").1] ->
         exists c,
           resultOf (GetCodecForPayloadType 99) s = (c, None)
           /\ PayloadType c = 99
           /\ Name c = "h263-1998"
           /\ ClockRate c = 90000
           /\ EncodingParameters c = ""
           /\ Fmtp c = "custom=1").
Proof.
  split; [|split].
  - intros codec codecs Hk saved.
    exists (mergeFields saved codec). split.
    + now apply mergeCodecs_keyed.
    + repeat split.
  - intros s. rewrite scanSession_fold. cbn [fst].
    apply mergeAll_keyed, keyed_static.
  - intros s Hfr.
    exists (applyWildcard (wildcardsOf s)
              (mkCodec 99 "h263-1998" 90000 "" "custom=1" [])).
    split.
    + apply GetCodecForPayloadType_found. eexists. split; [|reflexivity].
      destruct Hfr as [-> | ->]; reflexivity.
    + pose proof (applyWildcard_scalars (wildcardsOf s)
                    (mkCodec 99 "h263-1998" 90000 "" "custom=1" [])) as H.
      cbn in H. exact H.
Qed.

Lemma merge_fills_empty_scalar_fields_witness :
  (exists merged : Codec,
      mergeCodecs (mkCodec 99 "other" 8000 "2" "custom=1" []) staticRtpmap99
      = <[99 := merged]> staticRtpmap99
      /\ Name merged = "h263-1998"
      /\ ClockRate merged = 90000
      /\ EncodingParameters merged = "2"
      /\ Fmtp merged = "custom=1")
  /\ resultOf (GetCodecForPayloadType 99) sessionH263
     = (mkCodec 99 "h263-1998" 90000 "" "custom=1" [], None)
  /\ resultOf (GetCodecForPayloadType 99) sessionH263'
     = (mkCodec 99 "h263-1998" 90000 "" "custom=1" [], None)
  /\ (exists c,
         resultOf (GetCodecForPayloadType 99) sessionH263 = (c, None)
         /\ PayloadType c = 99
         /\ Name c = "h263-1998"
         /\ ClockRate c = 90000
         /\ EncodingParameters c = ""
         /\ Fmtp c = "custom=1").
Proof.
  split; [|split; [reflexivity|split; [reflexivity|]]].
  - apply (proj1 merge_fills_empty_scalar_fields
             (mkCodec 99 "other" 8000 "2" "custom=1" []) staticRtpmap99).
    unfold staticRtpmap99.
    apply (proj1 (proj2 merge_fills_empty_scalar_fields)
             (session [attr "rtpmap" "99 h263-1998/90000"])).
  - apply (proj2 (proj2 merge_fills_empty_scalar_fields) sessionH263).
    left. reflexivity.
Defined.

(** ** Static codecs *)

Lemma static_codec_kept (s : SessionDescription) (pt : Z) (static : Codec) :
  staticCodecs !! pt = Some static ->
  PayloadType static = pt -> Name static <> "" -> ClockRate static <> 0 ->
  exists c,
    resultOf (GetCodecForPayloadType pt) s = (c, None)
    /\ PayloadType c = pt
    /\ Name c = Name static
    /\ ClockRate c = ClockRate static
    /\ (fragmentsFor pt s = [] -> wildcardsOf s = [] -> c = static).
Proof.
  intros Hst Hpt Hn Hr.
  destruct (fold_mergeFields_Some (fragmentsFor pt s) static) as (c0 & Hc0).
  exists (applyWildcard (wildcardsOf s) c0).
  assert (Hget : resultOf (GetCodecForPayloadType pt) s
                 = (applyWildcard (wildcardsOf s) c0, None)).
  { apply GetCodecForPayloadType_found. exists c0. now rewrite Hst. }
  destruct (applyWildcard_scalars (wildcardsOf s) c0) as (Hp & Hname & Hrate & _).
  destruct (fold_mergeFields_keeps _ _ _ Hn Hr Hc0) as [Hn0 Hr0].
  split; [exact Hget|]. split; [|split; [congruence|split; [congruence|]]].
  - rewrite Hp.
    assert (Hk : keyed (mergeAll staticCodecs
                          (omap fragment (allAttributes s))))
      by apply mergeAll_keyed, keyed_static.
    apply Hk. rewrite mergeAll_lookup by apply keyed_static.
    rewrite Hst. exact Hc0.
  - intros Hnil Hw. rewrite Hnil in Hc0. cbn in Hc0. injection Hc0 as <-.
    rewrite Hw. reflexivity.
Qed.

(** C5. Whatever the session holds, the lookups of payload types 0 and 8
    succeed and return a codec named PCMU, respectively PCMA, with clock
    rate 8000. When no attribute yields a fragment for the payload type
    and there is no wildcard feedback, as in a session without media
    blocks, the codec is the static definition itself. *)
Theorem static_codecs_always_present (s : SessionDescription) :
  (exists c,
      resultOf (GetCodecForPayloadType 0) s = (c, None)
      /\ PayloadType c = 0 /\ Name c = "PCMU" /\ ClockRate c = 8000
      /\ (fragmentsFor 0 s = [] -> wildcardsOf s = [] ->
          c = mkCodec 0 "PCMU" 8000 "" "" []))
  /\ (exists c,
         resultOf (GetCodecForPayloadType 8) s = (c, None)
         /\ PayloadType c = 8 /\ Name c = "PCMA" /\ ClockRate c = 8000
         /\ (fragmentsFor 8 s = [] -> wildcardsOf s = [] ->
             c = mkCodec 8 "PCMA" 8000 "" "" [])).
Proof.
  split.
  - apply (static_codec_kept s 0 (mkCodec 0 "PCMU" 8000 "" "" []));
      [reflexivity | reflexivity | discriminate | discriminate].
  - apply (static_codec_kept s 8 (mkCodec 8 "PCMA" 8000 "" "" []));
      [reflexivity | reflexivity | discriminate | discriminate].
Qed.

Lemma static_codecs_always_present_witness :
  resultOf (GetCodecForPayloadType 0) (mkSessionDescription [] [])
  = (mkCodec 0 "PCMU" 8000 "" "" [], None)
  /\ resultOf (GetCodecForPayloadType 8) (mkSessionDescription [] [])
     = (mkCodec 8 "PCMA" 8000 "" "" [], None)
  /\ resultOf (GetCodecForPayloadType 0) sessionOverPCMU
     = (mkCodec 0 "PCMU" 8000 "2" "x=1" ["nack"], None)
  /\ (exists c,
         resultOf (GetCodecForPayloadType 0) sessionOverPCMU = (c, None)
         /\ PayloadType c = 0 /\ Name c = "PCMU" /\ ClockRate c = 8000
         /\ (fragmentsFor 0 sessionOverPCMU = [] ->
             wildcardsOf sessionOverPCMU = [] ->
             c = mkCodec 0 "PCMU" 8000 "" "" []))
  /\ (exists c,
         resultOf (GetCodecForPayloadType 8) (mkSessionDescription [] [])
         = (c, None)
         /\ PayloadType c = 8 /\ Name c = "PCMA" /\ ClockRate c = 8000
         /\ (fragmentsFor 8 (mkSessionDescription [] []) = [] ->
             wildcardsOf (mkSessionDescription [] []) = [] ->
             c = mkCodec 8 "PCMA" 8000 "" "" [])).
Proof.
  repeat (split; [reflexivity|]). split.
  - apply (proj1 (static_codecs_always_present sessionOverPCMU)).
  - apply (proj2 (static_codecs_always_present (mkSessionDescription [] []))).
Defined.

(** ** Attributes that do not decode *)

Lemma prefix_head (c : ascii) (p s : string) :
  String.prefix (String c p) s = true ->
  exists s', s = String c s' /\ String.prefix p s' = true.
Proof.
  destruct s as [|x s]; cbn; [discriminate|].
  destruct (ascii_dec c x) as [->|]; [eauto | discriminate].
Qed.

(** The three prefixes exclude one another. *)
Lemma prefixes_exclusive (s : string) :
  (strings.HasPrefix s "rtpmap:" = true -> strings.HasPrefix s "fmtp:" = false)
  /\ (strings.HasPrefix s "rtpmap:" = true ->
      strings.HasPrefix s "rtcp-fb:" = false)
  /\ (strings.HasPrefix s "fmtp:" = true ->
      strings.HasPrefix s "rtcp-fb:" = false).
Proof.
  unfold strings.HasPrefix. repeat split; intros H.
  - apply prefix_head in H as (s1 & -> & _). reflexivity.
  - apply prefix_head in H as (s1 & -> & H).
    apply prefix_head in H as (s2 & -> & H).
    apply prefix_head in H as (s3 & -> & _). reflexivity.
  - apply prefix_head in H as (s1 & -> & _). reflexivity.
Qed.

(** An attribute that fails to decode adds nothing to the scan. *)
Lemma decodeFails_skipped (a : Attribute) :
  decodeFails a = true -> fragment a = None /\ wildcardFeedback a = [].
Proof.
  unfold decodeFails, fragment, wildcardFeedback. cbn zeta.
  destruct (prefixes_exclusive (Attribute_String a)) as (H1 & H2 & H3).
  destruct (strings.HasPrefix _ "rtpmap:") eqn:Hr.
  { rewrite (H1 eq_refl), (H2 eq_refl). cbn.
    destruct (parseRtpmap _) as [c [e|]]; cbn; [tauto|].
    cbn. discriminate. }
  destruct (strings.HasPrefix _ "fmtp:") eqn:Hf.
  { rewrite (H3 eq_refl). cbn.
    destruct (parseFmtp _) as [c [e|]]; cbn; [tauto|].
    cbn. discriminate. }
  destruct (strings.HasPrefix _ "rtcp-fb:") eqn:Hb; [|discriminate].
  cbn. destruct (parseRtcpFb _) as [[c [|]] [e|]]; cbn;
    first [tauto | discriminate].
Qed.

Lemma omap_filter_skipped {A B} (f : A -> option B) (P : A -> bool)
      (l : list A) :
  (forall a, P a = true -> f a = None) ->
  omap f (filter (fun a => P a = false) l) = omap f l.
Proof.
  intros H. induction l as [|a l IH]; [reflexivity|].
  rewrite filter_cons. destruct (P a) eqn:HP.
  - rewrite decide_False by discriminate. cbn. now rewrite (H a HP).
  - rewrite decide_True by reflexivity. cbn. now rewrite IH.
Qed.

Lemma bind_filter_skipped {A B} (f : A -> list B) (P : A -> bool)
      (l : list A) :
  (forall a, P a = true -> f a = []) ->
  filter (fun a => P a = false) l ≫= f = l ≫= f.
Proof.
  intros H. induction l as [|a l IH]; [reflexivity|].
  rewrite filter_cons. destruct (P a) eqn:HP.
  - rewrite decide_False by discriminate. rewrite bind_cons, (H a HP). exact IH.
  - rewrite decide_True by reflexivity. rewrite !bind_cons. now rewrite IH.
Qed.

Lemma allAttributes_dropUndecodable (s : SessionDescription) :
  allAttributes (dropUndecodable s)
  = filter (fun a => decodeFails a = false) (allAttributes s).
Proof.
  unfold allAttributes, dropUndecodable. cbn [MediaDescriptions].
  induction (MediaDescriptions s) as [|m ms IH]; [reflexivity|].
  rewrite fmap_cons, !bind_cons, filter_app, IH. reflexivity.
Qed.

Lemma buildCodecMap_dropUndecodable (s : SessionDescription) :
  resultOf buildCodecMap (dropUndecodable s) = resultOf buildCodecMap s.
Proof.
  unfold resultOf. rewrite !buildCodecMap_fold. cbn [fst].
  unfold wildcardsOf. rewrite allAttributes_dropUndecodable.
  rewrite omap_filter_skipped by (intros a H; now apply decodeFails_skipped).
  rewrite bind_filter_skipped by (intros a H; now apply decodeFails_skipped).
  reflexivity.
Qed.

Lemma GetCodecsForPayloadTypes_result (pts : list Z) (s : SessionDescription) :
  resultOf (GetCodecsForPayloadTypes pts) s
  = (foldl (fun result payloadType =>
              match resultOf buildCodecMap s !! payloadType with
              | Some codec => result ++ [codec]
              | None => result
              end) [] pts, None).
Proof.
  unfold resultOf, GetCodecsForPayloadTypes, mbind, Method_bind.
  destruct (buildCodecMap s) as [codecs s'] eqn:Hb. reflexivity.
Qed.

Section RangeOrder.

Variable foldUnicode : string -> string -> bool.
Variable rangeOrder : gmap Z Codec -> list (Z * Codec).

Lemma GetPayloadTypeForCodec_result (wanted : Codec) (s : SessionDescription) :
  resultOf (GetPayloadTypeForCodec foldUnicode rangeOrder wanted) s
  = firstMatch foldUnicode wanted (rangeOrder (resultOf buildCodecMap s)).
Proof.
  unfold resultOf, GetPayloadTypeForCodec, mbind, Method_bind.
  destruct (buildCodecMap s) as [codecs s'] eqn:Hb. reflexivity.
Qed.

(** What the loop of [GetPayloadTypeForCodec] returns: the payload type of
    an entry that matches and no error, or 0 and [errCodecNotFound] when no
    entry matches. *)
Lemma firstMatch_spec (wanted : Codec) (entries : list (Z * Codec)) :
  (exists pt c,
      (pt, c) ∈ entries /\ codecsMatch foldUnicode wanted c = true
      /\ firstMatch foldUnicode wanted entries = (pt, None))
  \/ ((forall pt c, (pt, c) ∈ entries ->
                    codecsMatch foldUnicode wanted c = false)
      /\ firstMatch foldUnicode wanted entries = (0, Some errCodecNotFound)).
Proof.
  induction entries as [|[pt c] entries IH]; cbn [firstMatch].
  - right. split; [|reflexivity]. intros pt c H. now apply elem_of_nil in H.
  - destruct (codecsMatch foldUnicode wanted c) eqn:Hm.
    + left. exists pt, c. rewrite elem_of_cons. auto.
    + destruct IH as [(pt' & c' & Hin & Hm' & ->) | [Hnone ->]].
      * left. exists pt', c'. rewrite elem_of_cons. auto.
      * right. split; [|reflexivity]. intros pt' c' Hin.
        apply elem_of_cons in Hin as [[= -> ->] | Hin]; eauto.
Qed.

End RangeOrder.

(** C7. An attribute that its decoder rejects leaves the scan as it was:
    the merged map of a session is the merged map of the session without
    its undecodable rtpmap, fmtp and rtcp-fb attributes, and so are the
    answers of the lookups. The only errors of the queries are the final
    misses: [errPayloadTypeNotFound] exactly when the payload type is not
    in the map, none for the list query, and [errCodecNotFound] exactly
    when no entry of the map matches. *)
Theorem undecodable_attributes_are_skipped (s : SessionDescription) :
  resultOf buildCodecMap (dropUndecodable s) = resultOf buildCodecMap s
  /\ (forall pt,
         resultOf (GetCodecForPayloadType pt) (dropUndecodable s)
         = resultOf (GetCodecForPayloadType pt) s)
  /\ (forall pts,
         resultOf (GetCodecsForPayloadTypes pts) (dropUndecodable s)
         = resultOf (GetCodecsForPayloadTypes pts) s)
  /\ (forall pt,
         match resultOf buildCodecMap s !! pt with
         | Some c => resultOf (GetCodecForPayloadType pt) s = (c, None)
         | None =>
             resultOf (GetCodecForPayloadType pt) s
             = (zeroCodec, Some errPayloadTypeNotFound)
         end)
  /\ (forall pts, (resultOf (GetCodecsForPayloadTypes pts) s).2 = None)
  /\ (forall foldUnicode rangeOrder wanted,
         validRangeOrder rangeOrder ->
         resultOf (GetPayloadTypeForCodec foldUnicode rangeOrder wanted)
           (dropUndecodable s)
         = resultOf (GetPayloadTypeForCodec foldUnicode rangeOrder wanted) s
         /\ ((exists pt c,
                 resultOf buildCodecMap s !! pt = Some c
                 /\ codecsMatch foldUnicode wanted c = true
                 /\ resultOf (GetPayloadTypeForCodec foldUnicode rangeOrder
                              wanted) s = (pt, None))
             \/ ((forall pt c,
                     resultOf buildCodecMap s !! pt = Some c ->
                     codecsMatch foldUnicode wanted c = false)
                 /\ resultOf (GetPayloadTypeForCodec foldUnicode rangeOrder
                              wanted) s = (0, Some errCodecNotFound)))).
Proof.
  pose proof (buildCodecMap_dropUndecodable s) as Hdrop.
  split; [exact Hdrop|]. split; [|split; [|split; [|split]]].
  - intros pt. now rewrite !GetCodecForPayloadType_result, Hdrop.
  - intros pts. now rewrite !GetCodecsForPayloadTypes_result, Hdrop.
  - intros pt. rewrite GetCodecForPayloadType_result.
    destruct (resultOf buildCodecMap s !! pt); reflexivity.
  - intros pts. now rewrite GetCodecsForPayloadTypes_result.
  - intros foldUnicode rangeOrder wanted Hvalid. unfold validRangeOrder in Hvalid.
    rewrite !GetPayloadTypeForCodec_result, Hdrop. split; [reflexivity|].
    destruct (firstMatch_spec foldUnicode wanted
                (rangeOrder (resultOf buildCodecMap s)))
      as [(pt & c & Hin & Hm & Hres) | [Hnone Hres]].
    + left. exists pt, c. rewrite Hvalid in Hin.
      apply elem_of_map_to_list in Hin. auto.
    + right. split; [|exact Hres]. intros pt c Hlook.
      apply (Hnone pt c). rewrite Hvalid. now apply elem_of_map_to_list.
Qed.

Lemma listOrder_valid : validRangeOrder listOrder.
Proof. intros codecs. reflexivity. Qed.

Lemma undecodable_attributes_are_skipped_witness :
  decodeFails (attr "rtpmap" "97 VP8/fast") = true
  /\ resultOf (GetCodecForPayloadType 97) sessionNoise
     = (zeroCodec, Some errPayloadTypeNotFound)
  /\ validRangeOrder listOrder
  /\ resultOf (GetPayloadTypeForCodec noUnicodeFold listOrder
                 (wantedName "OPUS")) (dropUndecodable sessionNoise)
     = resultOf (GetPayloadTypeForCodec noUnicodeFold listOrder
                   (wantedName "OPUS")) sessionNoise
  /\ ((exists pt c,
          resultOf buildCodecMap sessionNoise !! pt = Some c
          /\ codecsMatch noUnicodeFold (wantedName "OPUS") c = true
          /\ resultOf (GetPayloadTypeForCodec noUnicodeFold listOrder
                         (wantedName "OPUS")) sessionNoise = (pt, None))
      \/ ((forall pt c,
              resultOf buildCodecMap sessionNoise !! pt = Some c ->
              codecsMatch noUnicodeFold (wantedName "OPUS") c = false)
          /\ resultOf (GetPayloadTypeForCodec noUnicodeFold listOrder
                         (wantedName "OPUS")) sessionNoise
             = (0, Some errCodecNotFound))).
Proof.
  split; [reflexivity|]. split; [reflexivity|].
  split; [exact listOrder_valid|].
  apply (undecodable_attributes_are_skipped sessionNoise).
  exact listOrder_valid.
Defined.

(** ** The session is left as it was *)

(** C9. None of the three queries changes the session it is called on: the
    session after the call is the session before it, whatever the argument.
    Nothing is kept between calls either: a query gives the same answer
    after another query as on its own. *)
Theorem queries_leave_session_unchanged (s : SessionDescription) :
  (forall pt, sessionAfter (GetCodecForPayloadType pt) s = s)
  /\ (forall pts, sessionAfter (GetCodecsForPayloadTypes pts) s = s)
  /\ (forall foldUnicode rangeOrder wanted,
         sessionAfter (GetPayloadTypeForCodec foldUnicode rangeOrder wanted) s
         = s)
  /\ sessionAfter buildCodecMap s = s
  /\ (forall foldUnicode rangeOrder wanted pts pt,
         resultOf (_ ← GetPayloadTypeForCodec foldUnicode rangeOrder wanted;
                   _ ← GetCodecsForPayloadTypes pts;
                   GetCodecForPayloadType pt) s
         = resultOf (GetCodecForPayloadType pt) s).
Proof.
  pose proof (buildCodecMap_fold s) as Hb.
  repeat split.
  - intros pt. unfold sessionAfter, GetCodecForPayloadType, mbind, Method_bind.
    rewrite Hb. destruct (_ !! pt); reflexivity.
  - intros pts. unfold sessionAfter, GetCodecsForPayloadTypes, mbind, Method_bind.
    rewrite Hb. reflexivity.
  - intros f o w. unfold sessionAfter, GetPayloadTypeForCodec, mbind, Method_bind.
    rewrite Hb. reflexivity.
  - apply buildCodecMap_after.
  - intros f o w pts pt.
    unfold resultOf, GetPayloadTypeForCodec, GetCodecsForPayloadTypes, mbind,
      Method_bind, mret, Method_ret.
    rewrite Hb, Hb. reflexivity.
Qed.

(** ** Matching *)

Lemma byteVal_range (c : ascii) : 0 <= strings.byteVal c < 256.
Proof.
  unfold strings.byteVal. pose proof (N_ascii_bounded c). lia.
Qed.

Lemma byteVal_inj (c d : ascii) :
  strings.byteVal c = strings.byteVal d -> c = d.
Proof.
  unfold strings.byteVal. intros H. apply N2Z.inj in H.
  rewrite <- (ascii_N_embedding c), <- (ascii_N_embedding d). now rewrite H.
Qed.

Lemma byteVal_lowerByte (c : ascii) :
  strings.byteVal (lowerByte c) = lowerZ (strings.byteVal c).
Proof.
  pose proof (byteVal_range c) as Hr.
  unfold lowerByte, strings.byteVal in *.
  assert (Hl : 0 <= lowerZ (Z.of_N (N_of_ascii c)) < 256).
  { unfold lowerZ. destruct (_ && _) eqn:H; [|lia].
    apply andb_prop in H as [H1 H2]. lia. }
  rewrite N_ascii_embedding by lia. lia.
Qed.

Lemma lowerByte_eqb (c d : ascii) :
  Ascii.eqb (lowerByte c) (lowerByte d)
  = (lowerZ (strings.byteVal c) =? lowerZ (strings.byteVal d)).
Proof.
  destruct (Ascii.eqb_spec (lowerByte c) (lowerByte d)) as [He|Hne];
    symmetry.
  - apply Z.eqb_eq. now rewrite <- !byteVal_lowerByte, He.
  - apply Z.eqb_neq. intros H. apply Hne, byteVal_inj.
    now rewrite !byteVal_lowerByte.
Qed.

Lemma fold_byte (a b : Z) :
  a <> b ->
  (65 <=? Z.min a b) && (Z.min a b <=? 90)
  && (Z.max a b =? Z.min a b + 97 - 65)
  = (lowerZ a =? lowerZ b).
Proof.
  intros Hne. apply Bool.eq_iff_eq_true.
  rewrite !andb_true_iff, !Z.leb_le, !Z.eqb_eq. unfold lowerZ.
  destruct ((65 <=? a) && (a <=? 90)) eqn:Ha;
    destruct ((65 <=? b) && (b <=? 90)) eqn:Hb;
    rewrite ?andb_true_iff, ?andb_false_iff, ?Z.leb_le, ?Z.leb_gt in Ha, Hb;
    lia.
Qed.

(** On ASCII strings [EqualFold] compares the lower-case forms. *)
Lemma EqualFold_ascii (foldUnicode : string -> string -> bool) (s t : string) :
  isASCII s = true -> isASCII t = true ->
  strings.EqualFold foldUnicode s t
  = String.eqb (lowerASCII s) (lowerASCII t).
Proof.
  revert t. induction s as [|c s IH]; intros [|d t] Hs Ht; try reflexivity.
  cbn in Hs, Ht. apply andb_prop in Hs as [Hc Hs], Ht as [Hd Ht].
  cbn [strings.EqualFold lowerASCII String.eqb].
  rewrite lowerByte_eqb, (IH t Hs Ht).
  cbn zeta.
  replace (128 <=? strings.byteVal c) with false by lia.
  replace (128 <=? strings.byteVal d) with false by lia.
  cbn [orb].
  destruct (Z.eqb_spec (strings.byteVal c) (strings.byteVal d)) as [->|Hne].
  - now rewrite Z.eqb_refl.
  - rewrite (fold_byte _ _ Hne).
    destruct (lowerZ _ =? lowerZ _); reflexivity.
Qed.

(** C6. [codecsMatch] holds exactly when each of name, clock rate, encoding
    parameters and fmtp of the wanted codec is empty or zero, or agrees with
    the candidate's: names under [strings.EqualFold], fmtp under
    [equivalentFmtp], the other two by equality. A wanted codec with the
    four fields empty or zero matches every candidate, and then the query
    returns a payload type without error. On ASCII names [EqualFold] is
    equality of the lower-case forms, so [pcmu] matches [PCMU]. *)
Theorem wanted_fields_are_optional_constraints
        (foldUnicode : string -> string -> bool) (wanted got : Codec) :
  (codecsMatch foldUnicode wanted got = true
   <-> (Name wanted = ""
        \/ strings.EqualFold foldUnicode (Name wanted) (Name got) = true)
       /\ (ClockRate wanted = 0 \/ ClockRate wanted = ClockRate got)
       /\ (EncodingParameters wanted = ""
           \/ EncodingParameters wanted = EncodingParameters got)
       /\ (Fmtp wanted = ""
           \/ equivalentFmtp (Fmtp wanted) (Fmtp got) = true))
  /\ (Name wanted = "" -> ClockRate wanted = 0 ->
      EncodingParameters wanted = "" -> Fmtp wanted = "" ->
      codecsMatch foldUnicode wanted got = true
      /\ forall rangeOrder s,
          validRangeOrder rangeOrder ->
          exists pt c,
            resultOf buildCodecMap s !! pt = Some c
            /\ resultOf (GetPayloadTypeForCodec foldUnicode rangeOrder
                           wanted) s = (pt, None))
  /\ (isASCII (Name wanted) = true -> isASCII (Name got) = true ->
      strings.EqualFold foldUnicode (Name wanted) (Name got)
      = String.eqb (lowerASCII (Name wanted)) (lowerASCII (Name got)))
  /\ codecsMatch foldUnicode (wantedName "pcmu")
       (mkCodec 0 "PCMU" 8000 "" "" []) = true.
Proof.
  assert (Hiff : forall w g,
             codecsMatch foldUnicode w g = true
             <-> (Name w = ""
                  \/ strings.EqualFold foldUnicode (Name w) (Name g) = true)
                 /\ (ClockRate w = 0 \/ ClockRate w = ClockRate g)
                 /\ (EncodingParameters w = ""
                     \/ EncodingParameters w = EncodingParameters g)
                 /\ (Fmtp w = ""
                     \/ equivalentFmtp (Fmtp w) (Fmtp g) = true)).
  { intros w g. unfold codecsMatch.
    destruct (String.eqb_spec (Name w) "") as [Hn|Hn];
      destruct (strings.EqualFold foldUnicode (Name w) (Name g)) eqn:Hf;
      destruct (Z.eqb_spec (ClockRate w) 0) as [Hr|Hr];
      destruct (Z.eqb_spec (ClockRate w) (ClockRate g)) as [Hr'|Hr'];
      destruct (String.eqb_spec (EncodingParameters w) "") as [He|He];
      destruct (String.eqb_spec (EncodingParameters w) (EncodingParameters g))
        as [He'|He'];
      destruct (String.eqb_spec (Fmtp w) "") as [Hp|Hp];
      destruct (equivalentFmtp (Fmtp w) (Fmtp g)) eqn:Hq;
      cbn; intuition (try discriminate; try congruence). }
  split; [apply Hiff|]. split; [|split].
  - intros Hn Hr He Hp.
    assert (Hall : forall g, codecsMatch foldUnicode wanted g = true)
      by (intros g; apply Hiff; auto).
    split; [apply Hall|].
    intros rangeOrder s Hvalid. unfold validRangeOrder in Hvalid.
    rewrite GetPayloadTypeForCodec_result.
    destruct (firstMatch_spec foldUnicode wanted
                (rangeOrder (resultOf buildCodecMap s)))
      as [(pt & c & Hin & _ & Hres) | [Hnone _]].
    + exists pt, c. rewrite Hvalid in Hin.
      apply elem_of_map_to_list in Hin. auto.
    + exfalso.
      destruct (static_codec_kept s 0 (mkCodec 0 "PCMU" 8000 "" "" []))
        as (c & Hc & _); [reflexivity | reflexivity | discriminate..|].
      rewrite GetCodecForPayloadType_result in Hc.
      destruct (resultOf buildCodecMap s !! 0) as [c0|] eqn:Hl;
        [|discriminate].
      specialize (Hnone 0 c0). rewrite Hvalid in Hnone.
      rewrite Hall in Hnone. discriminate Hnone.
      now apply elem_of_map_to_list.
  - apply EqualFold_ascii.
  - reflexivity.
Qed.

Lemma wanted_fields_are_optional_constraints_witness :
  codecsMatch noUnicodeFold (wantedName "") (mkCodec 96 "opus" 48000 "2" "a=1" [])
  = true
  /\ (exists pt c,
         resultOf buildCodecMap sessionFmtp !! pt = Some c
         /\ resultOf (GetPayloadTypeForCodec noUnicodeFold listOrder
                        (wantedName "")) sessionFmtp = (pt, None))
  /\ strings.EqualFold noUnicodeFold "Opus" "oPUS"
     = String.eqb (lowerASCII "Opus") (lowerASCII "oPUS")
  /\ strings.EqualFold noUnicodeFold "Opus" "oPUS" = true
  /\ codecsMatch noUnicodeFold (wantedName "pcmu")
       (mkCodec 0 "PCMU" 8000 "" "" []) = true
  /\ codecsMatch noUnicodeFold (wantedName "pcmu")
       (mkCodec 8 "PCMA" 8000 "" "" []) = false.
Proof.
  pose proof (wanted_fields_are_optional_constraints noUnicodeFold
                (wantedName "") (mkCodec 96 "opus" 48000 "2" "a=1" []))
    as (_ & Hzero & _).
  destruct (Hzero eq_refl eq_refl eq_refl eq_refl) as [Hmatch Hquery].
  split; [exact Hmatch|]. split; [exact (Hquery listOrder sessionFmtp listOrder_valid)|].
  split.
  - apply (wanted_fields_are_optional_constraints noUnicodeFold
             (wantedName "Opus") (mkCodec 0 "oPUS" 0 "" "" []));
      reflexivity.
  - repeat split; reflexivity.
Defined.

(** ** Sorting *)

Lemma sort_insert_perm (x : string) (l : list string) :
  sort.insert x l ≡ₚ x :: l.
Proof.
  induction l as [|y l IH]; cbn; [reflexivity|].
  destruct (String.leb x y); [reflexivity|].
  rewrite IH. apply Permutation_swap.
Qed.

Lemma sort_insert_sorted (x : string) (l : list string) :
  Sorted (fun a b => String.leb a b = true) l -> Sorted (fun a b => String.leb a b = true) (sort.insert x l).
Proof.
  induction 1 as [|y l Hl IH Hhd]; cbn.
  - repeat constructor.
  - destruct (String.leb x y) eqn:Hxy.
    + constructor; [now constructor|]. constructor.
      exact Hxy.
    + constructor; [exact IH|].
      assert (Hyx : String.leb y x = true).
      { destruct (String.leb_total x y) as [H|H]; [congruence | exact H]. }
      destruct Hhd as [|z l' Hyz]; cbn.
      * now constructor.
      * destruct (String.leb x z); now constructor.
Qed.

(** [sort.Strings] returns the elements of the slice in increasing order. *)
Lemma Strings_sorted_perm (l : list string) :
  Sorted (fun a b => String.leb a b = true) (sort.Strings l) /\ sort.Strings l ≡ₚ l.
Proof.
  induction l as [|x l [IHs IHp]]; cbn.
  - split; [constructor | reflexivity].
  - split; [now apply sort_insert_sorted|].
    rewrite sort_insert_perm. now rewrite IHp.
Qed.

(** ** Comparing fmtp strings *)

Lemma equivalentFmtp_part_count (want got : string) :
  length (strings.Split want ";") <> length (strings.Split got ";") ->
  equivalentFmtp want got = false.
Proof.
  intros H. unfold equivalentFmtp.
  destruct (Nat.eqb_spec (length (strings.Split want ";"))
              (length (strings.Split got ";"))); [contradiction | reflexivity].
Qed.

Lemma firstMatch_none (foldUnicode : string -> string -> bool)
      (wanted : Codec) (entries : list (Z * Codec)) :
  Forall (fun e => codecsMatch foldUnicode wanted e.2 = false) entries ->
  firstMatch foldUnicode wanted entries = (0, Some errCodecNotFound).
Proof.
  induction 1 as [|[pt c] entries Hc _ IH]; cbn [firstMatch]; [reflexivity|].
  cbn in Hc. now rewrite Hc.
Qed.

(** C1, the code at the input of the claim. The parts are sorted before
    they are trimmed: [" b=1"] sorts before ["a=2"], so the wanted fmtp
    [b=1;a=2] is compared part by part with the stored [a=2; b=1] in the
    wrong order and does not match: no codec that stores this fmtp matches,
    and the query on the session of the claim ends in [errCodecNotFound]
    whatever the order of the range. Without the space
    the two match. A stored fmtp with a different number of parts never
    matches. *)
Theorem fmtp_space_after_separator_not_matched :
  sort.Strings (strings.Split "b=1;a=2" ";") = ["a=2"; "b=1"]
  /\ sort.Strings (strings.Split "a=2; b=1" ";") = [" b=1"; "a=2"]
  /\ equivalentFmtp "b=1;a=2" "a=2; b=1" = false
  /\ (forall foldUnicode c,
         Fmtp c = "a=2; b=1" ->
         codecsMatch foldUnicode (wantedFmtp "b=1;a=2") c = false)
  /\ resultOf (GetCodecForPayloadType 96) sessionFmtp
     = (mkCodec 96 "opus" 48000 "" "a=2; b=1" [], None)
  /\ (forall foldUnicode rangeOrder,
         validRangeOrder rangeOrder ->
         resultOf (GetPayloadTypeForCodec foldUnicode rangeOrder
                     (wantedFmtp "b=1;a=2")) sessionFmtp
         = (0, Some errCodecNotFound))
  /\ equivalentFmtp "b=1;a=2" "a=2;b=1" = true
  /\ equivalentFmtp "b=1;a=2" " a=2 ;b=1" = true
  /\ equivalentFmtp "b=1;a=2" "a=2;b=1;c=3" = false
  /\ (forall want got,
         length (strings.Split want ";") <> length (strings.Split got ";") ->
         equivalentFmtp want got = false).
Proof.
  repeat (split; [reflexivity|]). split; [|split; [reflexivity|]].
  { intros foldUnicode c Hc. unfold codecsMatch. rewrite Hc. reflexivity. }
  split; [|repeat (split; [reflexivity|])].
  - intros foldUnicode rangeOrder Hvalid.
    rewrite GetPayloadTypeForCodec_result. apply firstMatch_none.
    rewrite (Hvalid _). apply Forall_forall. intros [pt c] Hin. cbn.
    assert (Hall : forallb
                     (fun e => negb (codecsMatch foldUnicode
                                       (wantedFmtp "b=1;a=2") e.2))
                     (map_to_list (resultOf buildCodecMap sessionFmtp))
                   = true) by (vm_compute; reflexivity).
    rewrite forallb_forall in Hall.
    apply list_elem_of_In, Hall in Hin. cbn in Hin.
    now apply negb_true_iff in Hin.
  - exact equivalentFmtp_part_count.
Qed.

Lemma fmtp_space_after_separator_not_matched_witness :
  validRangeOrder listOrder
  /\ resultOf (GetPayloadTypeForCodec noUnicodeFold listOrder
                 (wantedFmtp "b=1;a=2")) sessionFmtp
     = (0, Some errCodecNotFound)
  /\ length (strings.Split "b=1;a=2" ";")
     <> length (strings.Split "a=2;b=1;c=3" ";")
  /\ equivalentFmtp "b=1;a=2" "a=2;b=1;c=3" = false.
Proof.
  pose proof fmtp_space_after_separator_not_matched
    as (_ & _ & _ & _ & _ & Hq & _ & _ & _ & Hcount).
  split; [exact listOrder_valid|].
  split; [exact (Hq noUnicodeFold listOrder listOrder_valid)|].
  assert (Hlen : length (strings.Split "b=1;a=2" ";")
                 <> length (strings.Split "a=2;b=1;c=3" ";"))
    by (cbn; lia).
  split; [exact Hlen | exact (Hcount _ _ Hlen)].
Defined.

(** * Further properties of the decoders *)

(** ** Cutting at the first separator *)

Lemma genSplit_spent sep (cur s : string) :
  strings.genSplit sep (Some O) cur s = [(cur ++ s)%string].
Proof. destruct s; cbn; [now rewrite append_empty_r | reflexivity]. Qed.

Lemma genSplit_once_cut sep (a rest cur : string) :
  noByte sep a = true ->
  strings.genSplit sep (Some 1%nat) cur (a ++ String sep rest)
  = [(cur ++ a)%string; rest].
Proof.
  revert cur. induction a as [|x a IH]; intros cur H;
    rewrite ?append_cons, ?append_nil; cbn.
  - rewrite Ascii.eqb_refl, append_empty_r. cbn.
    now rewrite genSplit_spent.
  - cbn in H. apply andb_prop in H as [Hx Ha].
    apply negb_true_iff in Hx. rewrite Hx.
    rewrite IH by assumption. now rewrite append_assoc_byte.
Qed.

Lemma SplitN_two (a b : string) sep :
  noByte sep a = true -> strings.SplitN (a ++ String sep b) sep 2 = [a; b].
Proof. intros H. unfold strings.SplitN. cbn. now rewrite genSplit_once_cut. Qed.

(** Two pieces out of [SplitN s sep 2]: the text before the first separator
    and all the text after it. *)
Lemma genSplit_once_inv sep (s cur a b : string) :
  strings.genSplit sep (Some 1%nat) cur s = [a; b] ->
  exists a', a = (cur ++ a')%string /\ s = (a' ++ String sep b)%string
             /\ noByte sep a' = true.
Proof.
  revert cur a b. induction s as [|x s IH]; intros cur a b; cbn;
    [discriminate|].
  destruct (Ascii.eqb x sep) eqn:Hx.
  - apply Ascii.eqb_eq in Hx as ->. cbn. rewrite genSplit_spent.
    intros [= <- <-]. exists "". now rewrite append_empty_r.
  - intros H. apply IH in H as (a' & -> & -> & Hno).
    exists (String x a'). rewrite append_assoc_byte. repeat split.
    cbn. now rewrite Hx, Hno.
Qed.

Lemma SplitN_two_inv (s a b : string) sep :
  strings.SplitN s sep 2 = [a; b] ->
  s = (a ++ String sep b)%string /\ noByte sep a = true.
Proof.
  unfold strings.SplitN. cbn. intros H.
  apply genSplit_once_inv in H as (a' & -> & -> & Hno). now split.
Qed.

Lemma genSplit_nonempty sep budget (s cur : string) :
  strings.genSplit sep budget cur s <> [].
Proof.
  revert budget cur. induction s as [|x s IH]; intros budget cur; cbn;
    [discriminate|].
  destruct budget as [[|k]|]; [discriminate|..];
    destruct (Ascii.eqb x sep); first [discriminate | apply IH].
Qed.

(** One piece out of [Split]: no separator in the string. *)
Lemma genSplit_all_one_inv sep (s cur b : string) :
  strings.genSplit sep None cur s = [b] ->
  b = (cur ++ s)%string /\ noByte sep s = true.
Proof.
  revert cur b. induction s as [|x s IH]; intros cur b; cbn.
  - intros [= <-]. now rewrite append_empty_r.
  - destruct (Ascii.eqb x sep) eqn:Hx.
    + intros H. injection H as _ H. now apply genSplit_nonempty in H.
    + intros H. apply IH in H as [-> Hno]. rewrite append_assoc_byte.
      split; [reflexivity|]. now rewrite Hno.
Qed.

(** Two pieces out of [Split]: one separator in the string. *)
Lemma genSplit_all_two_inv sep (s cur a b : string) :
  strings.genSplit sep None cur s = [a; b] ->
  exists a', a = (cur ++ a')%string /\ s = (a' ++ String sep b)%string
             /\ noByte sep a' = true /\ noByte sep b = true.
Proof.
  revert cur a b. induction s as [|x s IH]; intros cur a b; cbn;
    [discriminate|].
  destruct (Ascii.eqb x sep) eqn:Hx.
  - apply Ascii.eqb_eq in Hx as ->.
    intros H. injection H as <- H.
    apply genSplit_all_one_inv in H as [-> Hno].
    exists "". now rewrite append_empty_r.
  - intros H. apply IH in H as (a' & -> & -> & Hno & Hb).
    exists (String x a'). rewrite append_assoc_byte. repeat split; [|exact Hb].
    cbn. now rewrite Hx, Hno.
Qed.

Lemma Split_two_inv (s a b : string) sep :
  strings.Split s sep = [a; b] ->
  s = (a ++ String sep b)%string
  /\ noByte sep a = true /\ noByte sep b = true.
Proof.
  unfold strings.Split. intros H.
  apply genSplit_all_two_inv in H as (a' & -> & -> & Hno & Hb). now repeat split.
Qed.



Lemma colon_space_assoc (key pt rest : string) :
  (key ++ ":" ++ pt ++ " " ++ rest)%string
  = ((key ++ String ":" pt) ++ String " " rest)%string.
Proof.
  change (":" ++ pt ++ " " ++ rest)%string
    with (String ":" "" ++ (pt ++ (String " " "" ++ rest)))%string.
  change (String ":" pt) with (String ":" "" ++ pt)%string.
  change (String " " rest) with (String " " "" ++ rest)%string.
  now rewrite !append_assoc.
Qed.

Lemma head_noByte_space (key pt : string) (bitSize n : Z) :
  noByte " " key = true -> strconv.ParseUint pt bitSize = (n, None) ->
  noByte " " (key ++ String ":" pt) = true.
Proof.
  intros Hk Hpt. destruct (ParseUint_ok _ _ _ Hpt) as (_ & Hp & _).
  rewrite noByte_append, Hk. cbn. exact Hp.
Qed.

(** ** fmtp *)

(** [parseFmtp] succeeds exactly on [key:pt params], where the key has no
    space and no colon and [pt] is a decimal [uint8]; the parameters are all
    the text behind the first space, kept byte for byte, and the codec
    carries nothing else. *)
Theorem parseFmtp_success_iff (s : string) (c : Codec) :
  parseFmtp s = (c, None)
  <-> exists key pt params n,
      s = (key ++ ":" ++ pt ++ " " ++ params)%string
      /\ noByte " " key = true /\ noByte ":" key = true
      /\ strconv.ParseUint pt 8 = (n, None)
      /\ c = mkCodec n "" 0 "" params [].
Proof.
  split.
  - unfold parseFmtp.
    destruct (strings.SplitN s " " 2) as [|s0 [|s1 [|? ?]]] eqn:Hs;
      try discriminate.
    destruct (strings.Split s0 ":") as [|p0 [|p1 [|? ?]]] eqn:Hp;
      try discriminate.
    destruct (strconv.ParseUint p1 8) as [n [e|]] eqn:Hn; [discriminate|].
    intros [= <-].
    apply SplitN_two_inv in Hs as [-> Hno].
    apply Split_two_inv in Hp as (-> & Hk & _).
    rewrite noByte_append in Hno. apply andb_prop in Hno as [Hk' _].
    exists p0, p1, s1, n. rewrite colon_space_assoc.
    repeat split; try assumption.
    destruct (ParseUint_ok _ _ _ Hn) as (Hr & _).
    unfold setFmtp, setPayloadType, uint8. cbn.
    rewrite Z.mod_small by lia. reflexivity.
  - intros (key & pt & params & n & -> & Hk1 & Hk2 & Hpt & ->).
    destruct (ParseUint_ok _ _ _ Hpt) as (Hr & _ & Hp2 & _).
    unfold parseFmtp. rewrite colon_space_assoc.
    rewrite SplitN_two by (eapply head_noByte_space; eassumption).
    rewrite Split_two by assumption. rewrite Hpt.
    unfold setFmtp, setPayloadType, uint8. cbn.
    rewrite Z.mod_small by lia. reflexivity.
Qed.

(** Every failure of [parseFmtp] returns the zero codec and
    [errExtractCodecFmtp]: no partial codec, no error of [strconv]. *)
Theorem parseFmtp_failure (s : string) (c : Codec) (e : error) :
  parseFmtp s = (c, Some e) -> c = zeroCodec /\ e = errExtractCodecFmtp.
Proof.
  unfold parseFmtp.
  destruct (strings.SplitN s " " 2) as [|s0 [|s1 [|? ?]]];
    try (intros [= <- <-]; now split).
  destruct (strings.Split s0 ":") as [|p0 [|p1 [|? ?]]];
    try (intros [= <- <-]; now split).
  destruct (strconv.ParseUint p1 8) as [n [e'|]]; [|discriminate].
  intros [= <- <-]. now split.
Qed.

Lemma parseFmtp_failure_witness :
  parseFmtp "fmtp:300 a=1" = (zeroCodec, Some errExtractCodecFmtp)
  /\ zeroCodec = zeroCodec /\ errExtractCodecFmtp = errExtractCodecFmtp.
Proof.
  split; [reflexivity|].
  apply (parseFmtp_failure "fmtp:300 a=1"). reflexivity.
Defined.

(** ** rtcp-fb *)

(** [parseRtcpFb] succeeds exactly on [key:pt feedback] with the key free of
    space and colon: with [pt] the asterisk it reports a wildcard and leaves
    the payload type 0, with [pt] a decimal [uint8] it sets the payload
    type. The feedback is all the text behind the first space, a feedback
    parameter included, as one string. *)
Theorem parseRtcpFb_success_iff (s : string) (c : Codec) (isWildcard : bool) :
  parseRtcpFb s = (c, isWildcard, None)
  <-> exists key pt fb,
      s = (key ++ ":" ++ pt ++ " " ++ fb)%string
      /\ noByte " " key = true /\ noByte ":" key = true
      /\ ((pt = "*" /\ isWildcard = true /\ c = mkCodec 0 "" 0 "" "" [fb])
          \/ (exists n, strconv.ParseUint pt 8 = (n, None)
                        /\ isWildcard = false
                        /\ c = mkCodec n "" 0 "" "" [fb])).
Proof.
  split.
  - unfold parseRtcpFb.
    destruct (strings.SplitN s " " 2) as [|s0 [|s1 [|? ?]]] eqn:Hs;
      try discriminate.
    destruct (strings.Split s0 ":") as [|p0 [|p1 [|? ?]]] eqn:Hp;
      try discriminate.
    apply SplitN_two_inv in Hs as [-> Hno].
    apply Split_two_inv in Hp as (-> & Hk & _).
    rewrite noByte_append in Hno. apply andb_prop in Hno as [Hk' _].
    cbn zeta. destruct (String.eqb_spec p1 "*") as [->|Hne]; cbn [negb].
    + intros [= <- <-]. exists p0, "*", s1. rewrite colon_space_assoc.
      repeat split; try assumption. left. repeat split.
    + destruct (strconv.ParseUint p1 8) as [n [e|]] eqn:Hn; [discriminate|].
      intros [= <- <-]. exists p0, p1, s1. rewrite colon_space_assoc.
      repeat split; try assumption. right. exists n.
      destruct (ParseUint_ok _ _ _ Hn) as (Hr & _).
      split; [exact Hn|]. split; [reflexivity|].
      unfold setRTCPFeedback, setPayloadType, uint8. cbn.
      rewrite Z.mod_small by lia. reflexivity.
  - intros (key & pt & fb & -> & Hk1 & Hk2 & Hcase).
    unfold parseRtcpFb. rewrite colon_space_assoc.
    destruct Hcase as [(-> & -> & ->) | (n & Hpt & -> & ->)].
    + rewrite SplitN_two.
      2:{ rewrite noByte_append, Hk1. reflexivity. }
      rewrite Split_two by (assumption || reflexivity). reflexivity.
    + destruct (ParseUint_ok _ _ _ Hpt) as (Hr & _ & Hp2 & _).
      rewrite SplitN_two by (eapply head_noByte_space; eassumption).
      rewrite Split_two by assumption. cbn zeta.
      destruct (String.eqb_spec pt "*") as [->|Hne]; [discriminate Hpt|].
      cbn [negb]. rewrite Hpt.
      unfold setRTCPFeedback, setPayloadType, uint8. cbn.
      rewrite Z.mod_small by lia. reflexivity.
Qed.



Lemma parseFmtp_success_iff_witness :
  parseFmtp "fmtp:96 a=2; b=1" = (mkCodec 96 "" 0 "" "a=2; b=1" [], None).
Proof.
  apply (proj2 (parseFmtp_success_iff "fmtp:96 a=2; b=1"
                  (mkCodec 96 "" 0 "" "a=2; b=1" []))).
  exists "fmtp", "96", "a=2; b=1", 96. repeat split; reflexivity.
Defined.

Lemma parseRtcpFb_success_iff_witness :
  parseRtcpFb "rtcp-fb:* ccm fir" = (mkCodec 0 "" 0 "" "" ["ccm fir"], true, None).
Proof.
  apply (proj2 (parseRtcpFb_success_iff "rtcp-fb:* ccm fir"
                  (mkCodec 0 "" 0 "" "" ["ccm fir"]) true)).
  exists "rtcp-fb", "*", "ccm fir". repeat split; try reflexivity.
  left. repeat split.
Defined.

(** ** rtpmap *)

(** The decode of [key:pt desc] once the two outer cuts are made. *)
Lemma parseRtpmap_parts (key pt desc : string) (n : Z) :
  noByte " " key = true -> noByte ":" key = true ->
  strconv.ParseUint pt 8 = (n, None) ->
  noByte " " desc = true ->
  parseRtpmap (key ++ ":" ++ pt ++ " " ++ desc)
  = let split := strings.Split desc "/" in
    let codec := mkCodec n (nth 0 split "") 0 "" "" [] in
    if 1 <? Z.of_nat (length split) then
      match strconv.ParseUint (nth 1 split "") 32 with
      | (_, Some _) => (codec, Some errExtractCodecRtpmap)
      | (rate, None) =>
          (mkCodec n (nth 0 split "") (uint32 rate)
             (if 2 <? Z.of_nat (length split) then nth 2 split "" else "")
             "" [], None)
      end
    else (codec, None).
Proof.
  intros Hk1 Hk2 Hpt Hd.
  destruct (ParseUint_ok _ _ _ Hpt) as (Hr & _ & Hp2 & _).
  unfold parseRtpmap. rewrite colon_space_assoc.
  rewrite Split_two; [|eapply head_noByte_space; eassumption|assumption].
  rewrite Split_two by assumption. rewrite Hpt. cbn zeta.
  unfold setName, setPayloadType, setClockRate, setEncodingParameters, uint8.
  cbn [PayloadType Name ClockRate EncodingParameters Fmtp RTCPFeedback
         zeroCodec].
  rewrite Z.mod_small by lia.
  destruct (1 <? _) eqn:H1.
  - destruct (strconv.ParseUint _ 32) as [rate [e|]]; [reflexivity|].
    destruct (2 <? _); reflexivity.
  - replace (2 <? Z.of_nat (length (strings.Split desc "/"))) with false
      by lia.
    reflexivity.
Qed.

Lemma Split_cut (a rest : string) sep :
  noByte sep a = true ->
  strings.Split (a ++ String sep rest) sep = a :: strings.Split rest sep.
Proof. intros H. unfold strings.Split. now rewrite genSplit_cut. Qed.

Lemma slash_assoc (a b : string) :
  (a ++ "/" ++ b)%string = (a ++ String "/" b)%string.
Proof. reflexivity. Qed.

(** The full forms of an rtpmap attribute. With a clock rate that is a
    decimal [uint32] the decoder returns name and clock rate; a third part is
    the encoding parameters; whatever follows a further '/' is dropped. *)
Theorem parseRtpmap_full_forms (key pt name rate params extra : string)
        (n r : Z) :
  noByte " " key = true -> noByte ":" key = true ->
  strconv.ParseUint pt 8 = (n, None) ->
  noByte " " name = true -> noByte "/" name = true ->
  strconv.ParseUint rate 32 = (r, None) ->
  noByte " " params = true -> noByte "/" params = true ->
  noByte " " extra = true ->
  parseRtpmap (key ++ ":" ++ pt ++ " " ++ name ++ "/" ++ rate)
  = (mkCodec n name r "" "" [], None)
  /\ parseRtpmap (key ++ ":" ++ pt ++ " " ++ name ++ "/" ++ rate
                  ++ "/" ++ params)
     = (mkCodec n name r params "" [], None)
  /\ parseRtpmap (key ++ ":" ++ pt ++ " " ++ name ++ "/" ++ rate
                  ++ "/" ++ params ++ "/" ++ extra)
     = (mkCodec n name r params "" [], None).
Proof.
  intros Hk1 Hk2 Hpt Hn1 Hn2 Hrate Hp1 Hp2 He.
  destruct (ParseUint_ok _ _ _ Hrate) as (Hr & Hr1 & _ & Hr3).
  assert (Hu : uint32 r = r) by (unfold uint32; apply Z.mod_small; lia).
  pose proof (genSplit_nonempty "/" None extra "") as Hne.
  fold (strings.Split extra "/") in Hne.
  repeat split.
  - rewrite parseRtpmap_parts with (n := n); try assumption.
    2:{ rewrite !noByte_append, Hn1, Hr1. reflexivity. }
    rewrite slash_assoc, Split_cut, Split_one by assumption.
    cbn. now rewrite Hrate, Hu.
  - rewrite parseRtpmap_parts with (n := n); try assumption.
    2:{ rewrite !noByte_append, Hn1, Hr1, Hp1. reflexivity. }
    rewrite !slash_assoc, !Split_cut, Split_one by assumption.
    cbn. now rewrite Hrate, Hu.
  - rewrite parseRtpmap_parts with (n := n); try assumption.
    2:{ rewrite !noByte_append, Hn1, Hr1, Hp1, He. reflexivity. }
    rewrite !slash_assoc, !Split_cut by assumption.
    destruct (strings.Split extra "/") as [|e0 es]; [contradiction|].
    cbn [nth length]. rewrite Hrate, Hu.
    rewrite (proj2 (Z.ltb_lt 1 _)) by lia.
    rewrite (proj2 (Z.ltb_lt 2 _)) by lia.
    reflexivity.
Qed.

Lemma parseRtpmap_full_forms_witness :
  parseRtpmap "rtpmap:111 opus/48000" = (mkCodec 111 "opus" 48000 "" "" [], None)
  /\ parseRtpmap "rtpmap:111 opus/48000/2"
     = (mkCodec 111 "opus" 48000 "2" "" [], None)
  /\ parseRtpmap "rtpmap:111 opus/48000/2/x/y"
     = (mkCodec 111 "opus" 48000 "2" "" [], None).
Proof.
  apply (parseRtpmap_full_forms "rtpmap" "111" "opus" "48000" "2" "x/y");
    reflexivity.
Defined.



(** * Further properties of the merged map *)

(** ** Ranges *)

Lemma uint8_range (z : Z) : 0 <= uint8 z <= 255.
Proof. unfold uint8. pose proof (Z.mod_pos_bound z (2 ^ 8)). lia. Qed.

Lemma uint32_range (z : Z) : 0 <= uint32 z <= 2 ^ 32 - 1.
Proof. unfold uint32. pose proof (Z.mod_pos_bound z (2 ^ 32)). lia. Qed.

Lemma parseRtpmap_inRange (s : string) : inRange (parseRtpmap s).1.
Proof.
  unfold parseRtpmap, inRange.
  destruct (strings.Split s " ") as [|s0 [|s1 [|? ?]]]; try (cbn; lia).
  destruct (strings.Split s0 ":") as [|p0 [|p1 [|? ?]]]; try (cbn; lia).
  destruct (strconv.ParseUint p1 8) as [pt [e|]]; [cbn; lia|].
  cbn zeta. pose proof (uint8_range pt).
  destruct (1 <? _); [|destruct (2 <? _); cbn; lia].
  destruct (strconv.ParseUint _ 32) as [rate [e|]]; [cbn; lia|].
  pose proof (uint32_range rate). destruct (2 <? _); cbn; lia.
Qed.

Lemma parseFmtp_inRange (s : string) : inRange (parseFmtp s).1.
Proof.
  unfold parseFmtp, inRange.
  destruct (strings.SplitN s " " 2) as [|s0 [|s1 [|? ?]]]; try (cbn; lia).
  destruct (strings.Split s0 ":") as [|p0 [|p1 [|? ?]]]; try (cbn; lia).
  destruct (strconv.ParseUint p1 8) as [pt [e|]]; [cbn; lia|].
  pose proof (uint8_range pt). cbn. lia.
Qed.

Lemma parseRtcpFb_inRange (s : string) : inRange (parseRtcpFb s).1.1.
Proof.
  unfold parseRtcpFb, inRange.
  destruct (strings.SplitN s " " 2) as [|s0 [|s1 [|? ?]]]; try (cbn; lia).
  destruct (strings.Split s0 ":") as [|p0 [|p1 [|? ?]]]; try (cbn; lia).
  cbn zeta. destruct (String.eqb p1 "*"); cbn [negb]; [cbn; lia|].
  destruct (strconv.ParseUint p1 8) as [pt [e|]]; [cbn; lia|].
  pose proof (uint8_range pt). cbn. lia.
Qed.

Lemma fragment_inRange (a : Attribute) (c : Codec) :
  fragment a = Some c -> inRange c.
Proof.
  unfold fragment. cbn zeta.
  destruct (strings.HasPrefix _ "rtpmap:").
  { pose proof (parseRtpmap_inRange (Attribute_String a)) as H.
    destruct (parseRtpmap _) as [c' [e|]]; [discriminate|]. now intros [= <-]. }
  destruct (strings.HasPrefix _ "fmtp:").
  { pose proof (parseFmtp_inRange (Attribute_String a)) as H.
    destruct (parseFmtp _) as [c' [e|]]; [discriminate|]. now intros [= <-]. }
  destruct (strings.HasPrefix _ "rtcp-fb:"); [|discriminate].
  pose proof (parseRtcpFb_inRange (Attribute_String a)) as H.
  destruct (parseRtcpFb _) as [[c' [|]] [e|]]; try discriminate.
  now intros [= <-].
Qed.

Lemma static_inRange (pt : Z) (c : Codec) :
  staticCodecs !! pt = Some c -> PayloadType c = pt /\ inRange c.
Proof.
  unfold staticCodecs, inRange. rewrite !lookup_insert.
  repeat case_decide; subst; rewrite ?lookup_empty;
    first [discriminate | intros [= <-]; cbn; lia].
Qed.

Lemma fold_mergeFields_inRange (pt : Z) (frags : list Codec)
      (o : option Codec) (c : Codec) :
  Forall (fun f => PayloadType f = pt /\ inRange f) frags ->
  (forall c0, o = Some c0 -> PayloadType c0 = pt /\ inRange c0) ->
  foldl (fun o c => Some (mergeFields (default zeroCodec o) c)) o frags
  = Some c ->
  PayloadType c = pt /\ inRange c.
Proof.
  intros Hfr. revert o. induction Hfr as [|f frags [Hpt Hf] _ IH];
    intros o Ho; cbn [foldl].
  - apply Ho.
  - apply IH. intros c0 [= <-]. unfold inRange in *. cbn. split; [exact Hpt|].
    split; [lia|]. unfold firstZ.
    destruct o as [c1|]; cbn.
    + destruct (Ho c1 eq_refl) as (_ & _ & Hr).
      destruct (ClockRate c1 =? 0); lia.
    + lia.
Qed.

Lemma fragmentsFor_inRange (pt : Z) (s : SessionDescription) :
  Forall (fun f => PayloadType f = pt /\ inRange f) (fragmentsFor pt s).
Proof.
  apply Forall_forall. intros f Hin. unfold fragmentsFor in Hin.
  apply list_elem_of_filter in Hin as [Hpt Hin].
  apply list_elem_of_omap in Hin as (a & _ & Hfrag).
  split; [exact Hpt|]. eapply fragment_inRange; eassumption.
Qed.

Lemma buildCodecMap_keyed (s : SessionDescription) (pt : Z) (c : Codec) :
  resultOf buildCodecMap s !! pt = Some c -> PayloadType c = pt.
Proof.
  unfold resultOf. rewrite buildCodecMap_fold. cbn [fst].
  rewrite lookup_fmap.
  destruct (mergeAll _ _ !! pt) as [c0|] eqn:Hl; [|discriminate].
  cbn. intros [= <-].
  destruct (applyWildcard_scalars (wildcardsOf s) c0) as (-> & _).
  eapply mergeAll_keyed; [apply keyed_static | exact Hl].
Qed.

(** Every entry of the merged map sits under the payload type it carries,
    which fits a [uint8], and its clock rate fits a [uint32]. *)
Theorem merged_map_entries_in_range (s : SessionDescription) (pt : Z)
        (c : Codec) :
  resultOf buildCodecMap s !! pt = Some c ->
  PayloadType c = pt /\ 0 <= pt <= 255 /\ 0 <= ClockRate c <= 2 ^ 32 - 1.
Proof.
  rewrite buildCodecMap_lookup.
  destruct (foldl _ _ _) as [c0|] eqn:Hfold; [|discriminate].
  cbn. intros [= <-].
  destruct (applyWildcard_scalars (wildcardsOf s) c0) as (-> & _ & -> & _).
  apply fold_mergeFields_inRange with (pt := pt) in Hfold
    as (Hpt & Hr1 & Hr2).
  - rewrite Hpt in Hr1. auto.
  - apply fragmentsFor_inRange.
  - apply static_inRange.
Qed.

Lemma merged_map_entries_in_range_witness :
  resultOf buildCodecMap sessionOverPCMU !! 0
  = Some (mkCodec 0 "PCMU" 8000 "2" "x=1" ["nack"])
  /\ PayloadType (mkCodec 0 "PCMU" 8000 "2" "x=1" ["nack"]) = 0
  /\ 0 <= 0 <= 255
  /\ 0 <= ClockRate (mkCodec 0 "PCMU" 8000 "2" "x=1" ["nack"]) <= 2 ^ 32 - 1.
Proof.
  split; [reflexivity|].
  apply (merged_map_entries_in_range sessionOverPCMU 0). reflexivity.
Defined.

(** ** Which payload types are found *)

Lemma fold_mergeFields_None (frags : list Codec) (o : option Codec) :
  foldl (fun o c => Some (mergeFields (default zeroCodec o) c)) o frags = None
  <-> o = None /\ frags = [].
Proof.
  split.
  - destruct frags as [|f frags]; cbn [foldl]; [now intros ->|].
    destruct (fold_mergeFields_Some frags (mergeFields (default zeroCodec o) f))
      as (c' & ->). discriminate.
  - intros [-> ->]. reflexivity.
Qed.

Lemma static_keys (pt : Z) : staticCodecs !! pt = None <-> pt <> 0 /\ pt <> 8.
Proof.
  unfold staticCodecs.
  destruct (decide (pt = 8)) as [->|H8].
  { rewrite lookup_insert_eq. split; [discriminate | intros [_ H]; congruence]. }
  rewrite lookup_insert_ne by congruence.
  destruct (decide (pt = 0)) as [->|H0].
  { rewrite lookup_insert_eq. split; [discriminate | intros [H _]; congruence]. }
  rewrite lookup_insert_ne by congruence. rewrite lookup_empty. tauto.
Qed.

(** [GetCodecForPayloadType] misses, with [errPayloadTypeNotFound] and the
    zero codec, exactly for a payload type other than 0 and 8 that no
    rtpmap, fmtp or non-wildcard rtcp-fb attribute of a media block decodes
    to; in every other case it returns a codec and no error. *)
Theorem payload_type_not_found_iff (s : SessionDescription) (pt : Z) :
  (resultOf (GetCodecForPayloadType pt) s
   = (zeroCodec, Some errPayloadTypeNotFound)
   <-> pt <> 0 /\ pt <> 8
       /\ forall a c, a ∈ allAttributes s -> fragment a = Some c ->
                      PayloadType c <> pt)
  /\ (resultOf (GetCodecForPayloadType pt) s
      = (zeroCodec, Some errPayloadTypeNotFound)
      \/ exists c, resultOf (GetCodecForPayloadType pt) s = (c, None)).
Proof.
  rewrite GetCodecForPayloadType_result, buildCodecMap_lookup.
  assert (Hnone : fragmentsFor pt s = []
                  <-> forall a c, a ∈ allAttributes s -> fragment a = Some c ->
                                  PayloadType c <> pt).
  { unfold fragmentsFor. split.
    - intros Hnil a c Ha Hf Hpt.
      assert (Hin : c ∈ filter (fun c => PayloadType c = pt)
                          (omap fragment (allAttributes s))).
      { apply list_elem_of_filter. split; [exact Hpt|].
        apply list_elem_of_omap. eauto. }
      rewrite Hnil in Hin. now apply elem_of_nil in Hin.
    - intros Hall. destruct (filter _ _) as [|c l] eqn:Hf; [reflexivity|].
      assert (Hin : c ∈ filter (fun c => PayloadType c = pt)
                          (omap fragment (allAttributes s)))
        by (rewrite Hf; apply elem_of_cons; now left).
      apply list_elem_of_filter in Hin as [Hpt Hin].
      apply list_elem_of_omap in Hin as (a & Ha & Hfrag).
      now destruct (Hall a c Ha Hfrag). }
  destruct (foldl _ _ _) as [c0|] eqn:Hfold; cbn.
  - split; [|right; eauto]. split; [discriminate|].
    intros (H0 & H8 & Hall).
    assert (Hn : foldl (fun o c => Some (mergeFields (default zeroCodec o) c))
                   (staticCodecs !! pt) (fragmentsFor pt s) = None).
    { apply fold_mergeFields_None. split; [now apply static_keys|].
      now apply Hnone. }
    congruence.
  - split; [|now left]. split; [|reflexivity]. intros _.
    apply fold_mergeFields_None in Hfold as [Hst Hfr].
    apply static_keys in Hst as [H0 H8]. repeat split; try assumption.
    now apply Hnone.
Qed.

Lemma payload_type_not_found_iff_witness :
  resultOf (GetCodecForPayloadType 97) sessionFmtp
  = (zeroCodec, Some errPayloadTypeNotFound)
  /\ 97 <> 0 /\ 97 <> 8
  /\ forall a c, a ∈ allAttributes sessionFmtp -> fragment a = Some c ->
                 PayloadType c <> 97.
Proof.
  split; [reflexivity|].
  apply (proj1 (proj1 (payload_type_not_found_iff sessionFmtp 97))).
  reflexivity.
Defined.

(** ** Media blocks and session-level attributes *)

(** The queries see the attributes of the media blocks one after the other
    and nothing else: a session answers as the session that holds the same
    attributes in one media block and no session-level attribute. So a
    wildcard rtcp-fb of one media block reaches the codecs of every block,
    and a session-level attribute is never read. *)
Theorem media_block_boundaries_do_not_matter (s : SessionDescription) :
  resultOf buildCodecMap s = resultOf buildCodecMap (session (allAttributes s))
  /\ (forall pt,
         resultOf (GetCodecForPayloadType pt) s
         = resultOf (GetCodecForPayloadType pt) (session (allAttributes s)))
  /\ (forall pts,
         resultOf (GetCodecsForPayloadTypes pts) s
         = resultOf (GetCodecsForPayloadTypes pts) (session (allAttributes s)))
  /\ (forall foldUnicode rangeOrder wanted,
         resultOf (GetPayloadTypeForCodec foldUnicode rangeOrder wanted) s
         = resultOf (GetPayloadTypeForCodec foldUnicode rangeOrder wanted)
             (session (allAttributes s))).
Proof.
  assert (Hflat : allAttributes (session (allAttributes s)) = allAttributes s).
  { unfold session, allAttributes at 1. cbn [MediaDescriptions].
    rewrite bind_cons. cbn. now rewrite app_nil_r. }
  assert (Hmap : resultOf buildCodecMap s
                 = resultOf buildCodecMap (session (allAttributes s))).
  { unfold resultOf. rewrite !buildCodecMap_fold. cbn [fst].
    unfold wildcardsOf. now rewrite Hflat. }
  split; [exact Hmap|]. split; [|split].
  - intros pt. now rewrite !GetCodecForPayloadType_result, Hmap.
  - intros pts. now rewrite !GetCodecsForPayloadTypes_result, Hmap.
  - intros f o w. now rewrite !GetPayloadTypeForCodec_result, Hmap.
Qed.

(** * Further properties of the queries *)

(** ** The list query *)

Lemma collect_omap (codecs : gmap Z Codec) (pts : list Z) (acc : list Codec) :
  foldl (fun result payloadType =>
           match codecs !! payloadType with
           | Some codec => result ++ [codec]
           | None => result
           end) acc pts
  = acc ++ omap (fun pt => codecs !! pt) pts.
Proof.
  revert acc. induction pts as [|pt pts IH]; intros acc; cbn [foldl].
  - cbn. now rewrite app_nil_r.
  - rewrite IH. cbn [omap list_omap].
    destruct (codecs !! pt); [now rewrite <- app_assoc | reflexivity].
Qed.

Lemma found_lookup (pt : Z) (s : SessionDescription) :
  found pt s = resultOf buildCodecMap s !! pt.
Proof.
  unfold found. rewrite GetCodecForPayloadType_result.
  destruct (resultOf buildCodecMap s !! pt); reflexivity.
Qed.

(** [GetCodecsForPayloadTypes] returns, in the order of the request and
    with its repeats, the codecs of the single lookups that succeed; the
    payload types they carry are the requested ones that are in the map. A
    request made of two lists is answered by the two answers one after the
    other. *)
Theorem list_query_collects_single_lookups (s : SessionDescription)
        (pts pts' : list Z) :
  resultOf (GetCodecsForPayloadTypes pts) s
  = (omap (fun pt => found pt s) pts, None)
  /\ PayloadType <$> (resultOf (GetCodecsForPayloadTypes pts) s).1
     = filter (fun pt => is_Some (found pt s)) pts
  /\ (resultOf (GetCodecsForPayloadTypes (pts ++ pts')) s).1
     = (resultOf (GetCodecsForPayloadTypes pts) s).1
       ++ (resultOf (GetCodecsForPayloadTypes pts') s).1.
Proof.
  assert (Heq : forall l,
             resultOf (GetCodecsForPayloadTypes l) s
             = (omap (fun pt => found pt s) l, None)).
  { intros l. rewrite GetCodecsForPayloadTypes_result, collect_omap.
    cbn [app]. f_equal.
    induction l as [|pt l IH]; [reflexivity|].
    cbn [omap list_omap]. now rewrite IH, found_lookup. }
  split; [apply Heq|]. split.
  - rewrite Heq. cbn [fst]. induction pts as [|pt pts IH]; [reflexivity|].
    cbn [omap list_omap]. rewrite filter_cons.
    destruct (found pt s) as [c|] eqn:Hf.
    + rewrite decide_True by eauto. rewrite fmap_cons.
      f_equal; [|exact IH].
      rewrite found_lookup in Hf.
      now apply buildCodecMap_keyed in Hf.
    + rewrite decide_False by (intros [? [=]]). exact IH.
  - rewrite !Heq. cbn [fst]. apply omap_app.
Qed.

(** ** The codec query *)

(** When one entry of the map matches and no other, the query returns its
    payload type in every order of the range. *)
Theorem single_match_is_returned
        (foldUnicode : string -> string -> bool)
        (rangeOrder : gmap Z Codec -> list (Z * Codec))
        (s : SessionDescription) (wanted : Codec) (pt : Z) (c : Codec) :
  validRangeOrder rangeOrder ->
  resultOf buildCodecMap s !! pt = Some c ->
  codecsMatch foldUnicode wanted c = true ->
  (forall pt' c',
      resultOf buildCodecMap s !! pt' = Some c' ->
      codecsMatch foldUnicode wanted c' = true -> pt' = pt) ->
  resultOf (GetPayloadTypeForCodec foldUnicode rangeOrder wanted) s
  = (pt, None).
Proof.
  intros Hvalid Hc Hm Hunique. unfold validRangeOrder in Hvalid.
  rewrite GetPayloadTypeForCodec_result.
  destruct (firstMatch_spec foldUnicode wanted
              (rangeOrder (resultOf buildCodecMap s)))
    as [(pt' & c' & Hin & Hm' & ->) | [Hnone _]].
  - rewrite Hvalid in Hin. apply elem_of_map_to_list in Hin.
    now rewrite (Hunique pt' c' Hin Hm').
  - specialize (Hnone pt c). rewrite Hvalid in Hnone.
    rewrite Hnone in Hm; [discriminate|]. now apply elem_of_map_to_list.
Qed.

Lemma single_match_is_returned_witness :
  resultOf (GetPayloadTypeForCodec noUnicodeFold listOrder (wantedName "pcma"))
    sessionFmtp = (8, None).
Proof.
  apply (single_match_is_returned noUnicodeFold listOrder sessionFmtp
           (wantedName "pcma") 8 (mkCodec 8 "PCMA" 8000 "" "" [])).
  - exact listOrder_valid.
  - reflexivity.
  - reflexivity.
  - intros pt' c' Hl Hm.
    assert (Hin : (pt', c') ∈ map_to_list (resultOf buildCodecMap sessionFmtp))
      by now apply elem_of_map_to_list.
    assert (Hall : forallb
                     (fun e => negb (codecsMatch noUnicodeFold
                                       (wantedName "pcma") e.2)
                               || (e.1 =? 8))
                     (map_to_list (resultOf buildCodecMap sessionFmtp))
                   = true) by (vm_compute; reflexivity).
    rewrite forallb_forall in Hall.
    apply list_elem_of_In, Hall in Hin. cbn in Hin.
    rewrite Hm in Hin. cbn in Hin. now apply Z.eqb_eq in Hin.
Defined.

(** ** fmtp comparison as a relation *)

Lemma forallb_combine_Forall2 {A B} (f : A * B -> bool) (l1 : list A)
      (l2 : list B) :
  length l1 = length l2 ->
  forallb f (combine l1 l2) = true
  <-> Forall2 (fun x y => f (x, y) = true) l1 l2.
Proof.
  revert l2. induction l1 as [|x l1 IH]; intros [|y l2] Hlen;
    try discriminate.
  - split; [constructor | reflexivity].
  - cbn. rewrite andb_true_iff, (IH l2) by (cbn in Hlen; lia). split.
    + intros [? ?]. now constructor.
    + intros H. apply Forall2_cons_1 in H. exact H.
Qed.

Lemma Strings_length (l : list string) :
  length (sort.Strings l) = length l.
Proof. apply Permutation_length, Strings_sorted_perm. Qed.

(** [equivalentFmtp] unfolded: the sorted parts agree position by position
    once trimmed. *)
Lemma equivalentFmtp_Forall2 (want got : string) :
  equivalentFmtp want got = true
  <-> Forall2 (fun w g => strings.TrimSpace g = strings.TrimSpace w)
        (sort.Strings (strings.Split want ";"))
        (sort.Strings (strings.Split got ";")).
Proof.
  unfold equivalentFmtp.
  destruct (Nat.eqb_spec (length (strings.Split want ";"))
              (length (strings.Split got ";"))) as [Hlen|Hlen]; cbn [negb].
  - rewrite forallb_combine_Forall2 by now rewrite !Strings_length.
    split; intros H; (eapply Forall2_impl; [exact H|]); cbn;
      intros w g Hwg; now apply String.eqb_eq.
  - split; [discriminate|]. intros H. apply Forall2_length in H.
    rewrite !Strings_length in H. contradiction.
Qed.

Lemma equivalentFmtp_refl (a : string) : equivalentFmtp a a = true.
Proof.
  apply equivalentFmtp_Forall2. apply Forall2_same_length_lookup_2;
    [reflexivity|]. intros i x y Hx Hy. congruence.
Qed.

(** [equivalentFmtp] is an equivalence relation on strings: reflexive,
    symmetric and transitive. *)
Theorem equivalentFmtp_equivalence (a b c : string) :
  equivalentFmtp a a = true
  /\ equivalentFmtp a b = equivalentFmtp b a
  /\ (equivalentFmtp a b = true -> equivalentFmtp b c = true ->
      equivalentFmtp a c = true).
Proof.
  split; [|split].
  - apply equivalentFmtp_refl.
  - apply Bool.eq_iff_eq_true. rewrite !equivalentFmtp_Forall2.
    split; intros H; apply Forall2_flip;
      (eapply Forall2_impl; [exact H|]); cbn; intros x y Hxy; now symmetry.
  - rewrite !equivalentFmtp_Forall2. intros Hab Hbc.
    eapply Forall2_trans; [|exact Hab|exact Hbc].
    cbn. intros x y z Hxy Hyz. congruence.
Qed.

Lemma equivalentFmtp_equivalence_witness :
  equivalentFmtp "b=1;a=2" " a=2;b=1" = true
  /\ equivalentFmtp " a=2;b=1" "a=2 ;b=1 " = true
  /\ equivalentFmtp "b=1;a=2" "a=2 ;b=1 " = true.
Proof.
  split; [reflexivity|]. split; [reflexivity|].
  apply (proj2 (proj2 (equivalentFmtp_equivalence
                         "b=1;a=2" " a=2;b=1" "a=2 ;b=1 ")));
    reflexivity.
Defined.

(** ** Parts in another order *)

#[local] Instance leb_transitive :
  Transitive (fun a b : string => String.leb a b = true).
Proof.
  intros x y z Hxy Hyz.
  apply Is_true_true. apply Is_true_true in Hxy, Hyz.
  exact (@transitivity _ stdpp.strings.String.le _ x y z Hxy Hyz).
Qed.

#[local] Instance leb_antisymm :
  AntiSymm (=) (fun a b : string => String.leb a b = true).
Proof. intros x y Hxy Hyx. now apply String.leb_antisym. Qed.

Lemma Strings_permutation (l1 l2 : list string) :
  l1 ≡ₚ l2 -> sort.Strings l1 = sort.Strings l2.
Proof.
  intros Hp.
  destruct (Strings_sorted_perm l1) as [Hs1 Hp1].
  destruct (Strings_sorted_perm l2) as [Hs2 Hp2].
  apply (Sorted_unique (fun a b : string => String.leb a b = true));
    try assumption.
  now rewrite Hp1, Hp, Hp2.
Qed.

(** The order of the parts does not count when the parts are the same byte
    for byte: a string whose parts are a rearrangement of the parts of
    another compares like the other, on either side, and the two are
    equivalent. *)
Theorem equivalentFmtp_rearranged_parts (a a' b : string) :
  strings.Split a ";" ≡ₚ strings.Split a' ";" ->
  equivalentFmtp a b = equivalentFmtp a' b
  /\ equivalentFmtp b a = equivalentFmtp b a'
  /\ equivalentFmtp a a' = true.
Proof.
  intros Hp. pose proof (Strings_permutation _ _ Hp) as Hs.
  pose proof (Permutation_length Hp) as Hlen.
  assert (Hleft : forall x, equivalentFmtp a x = equivalentFmtp a' x).
  { intros x. unfold equivalentFmtp. now rewrite Hs, Hlen. }
  assert (Hright : forall x, equivalentFmtp x a = equivalentFmtp x a').
  { intros x. unfold equivalentFmtp. now rewrite Hs, Hlen. }
  split; [apply Hleft|]. split; [apply Hright|].
  rewrite Hleft. apply equivalentFmtp_refl.
Qed.

Lemma equivalentFmtp_rearranged_parts_witness :
  strings.Split "c=3;a=1;b=2" ";" ≡ₚ strings.Split "b=2;c=3;a=1" ";"
  /\ equivalentFmtp "c=3;a=1;b=2" "a=1;b=2;c=3"
     = equivalentFmtp "b=2;c=3;a=1" "a=1;b=2;c=3"
  /\ equivalentFmtp "a=1;b=2;c=3" "c=3;a=1;b=2"
     = equivalentFmtp "a=1;b=2;c=3" "b=2;c=3;a=1"
  /\ equivalentFmtp "c=3;a=1;b=2" "b=2;c=3;a=1" = true.
Proof.
  assert (Hp : strings.Split "c=3;a=1;b=2" ";"
               ≡ₚ strings.Split "b=2;c=3;a=1" ";").
  { change (["c=3"; "a=1"; "b=2"] ≡ₚ ["b=2"; "c=3"; "a=1"]).
    apply (Permutation_app_comm ["c=3"; "a=1"] ["b=2"]). }
  split; [exact Hp|].
  apply (equivalentFmtp_rearranged_parts "c=3;a=1;b=2" "b=2;c=3;a=1"
           "a=1;b=2;c=3" Hp).
Defined.

(** ** Looking up a codec of the map *)

Lemma EqualFold_refl_ascii (foldUnicode : string -> string -> bool)
      (s : string) :
  isASCII s = true -> strings.EqualFold foldUnicode s s = true.
Proof.
  intros H. rewrite EqualFold_ascii by assumption. apply String.eqb_refl.
Qed.

Lemma codecsMatch_refl (foldUnicode : string -> string -> bool) (c : Codec) :
  isASCII (Name c) = true -> codecsMatch foldUnicode c c = true.
Proof.
  intros H. unfold codecsMatch.
  rewrite EqualFold_refl_ascii by assumption.
  rewrite Z.eqb_refl, String.eqb_refl, equivalentFmtp_refl.
  now rewrite !andb_false_r.
Qed.

(** A codec that a lookup returned, its name in ASCII, is a wanted codec
    that the codec query always finds: the query returns without error the
    payload type of an entry that matches it. *)
Theorem codec_of_the_map_is_found
        (foldUnicode : string -> string -> bool)
        (rangeOrder : gmap Z Codec -> list (Z * Codec))
        (s : SessionDescription) (pt : Z) (c : Codec) :
  validRangeOrder rangeOrder ->
  resultOf (GetCodecForPayloadType pt) s = (c, None) ->
  isASCII (Name c) = true ->
  exists pt' c',
    resultOf (GetPayloadTypeForCodec foldUnicode rangeOrder c) s = (pt', None)
    /\ resultOf (GetCodecForPayloadType pt') s = (c', None)
    /\ codecsMatch foldUnicode c c' = true.
Proof.
  intros Hvalid Hc Hascii. unfold validRangeOrder in Hvalid.
  rewrite GetCodecForPayloadType_result in Hc.
  destruct (resultOf buildCodecMap s !! pt) as [c0|] eqn:Hl; [|discriminate].
  injection Hc as ->.
  rewrite GetPayloadTypeForCodec_result.
  destruct (firstMatch_spec foldUnicode c
              (rangeOrder (resultOf buildCodecMap s)))
    as [(pt' & c' & Hin & Hm & ->) | [Hnone _]].
  - rewrite Hvalid in Hin. apply elem_of_map_to_list in Hin.
    exists pt', c'. rewrite GetCodecForPayloadType_result, Hin. auto.
  - specialize (Hnone pt c). rewrite Hvalid in Hnone.
    rewrite codecsMatch_refl in Hnone by assumption.
    discriminate Hnone. now apply elem_of_map_to_list.
Qed.

Lemma codec_of_the_map_is_found_witness :
  exists pt' c',
    resultOf (GetPayloadTypeForCodec noUnicodeFold listOrder
                (mkCodec 96 "opus" 48000 "" "a=2; b=1" [])) sessionFmtp
    = (pt', None)
    /\ resultOf (GetCodecForPayloadType pt') sessionFmtp = (c', None)
    /\ codecsMatch noUnicodeFold (mkCodec 96 "opus" 48000 "" "a=2; b=1" []) c'
       = true.
Proof.
  apply (codec_of_the_map_is_found noUnicodeFold listOrder sessionFmtp 96).
  - exact listOrder_valid.
  - reflexivity.
  - reflexivity.
Defined.

(** ** Wildcard feedback twice *)

Lemma applyWildcard_absorbed (wild : list string) (c : Codec) :
  (forall fb, fb ∈ wild -> fb ∈ RTCPFeedback c) -> applyWildcard wild c = c.
Proof.
  induction wild as [|w wild IH]; intros H; [reflexivity|].
  cbn [applyWildcard foldl].
  rewrite appendRTCPFeedback_present by (apply H, elem_of_cons; now left).
  apply IH. intros fb Hfb. apply H, elem_of_cons. now right.
Qed.

Lemma applyWildcard_app (w1 w2 : list string) (c : Codec) :
  applyWildcard (w1 ++ w2) c = applyWildcard w2 (applyWildcard w1 c).
Proof. unfold applyWildcard. apply foldl_app. Qed.

(** Wildcard feedback is applied once and for all: applying the list again
    changes nothing, and a session that repeats, after its attributes, an
    attribute bringing only wildcard feedback it already has builds the
    same map. *)
Theorem wildcard_feedback_is_idempotent :
  (forall wild c,
      applyWildcard wild (applyWildcard wild c) = applyWildcard wild c)
  /\ (forall (attrs : list Attribute) (a : Attribute),
         fragment a = None ->
         (forall fb, fb ∈ wildcardFeedback a ->
                     fb ∈ wildcardsOf (session attrs)) ->
         resultOf buildCodecMap (session (attrs ++ [a]))
         = resultOf buildCodecMap (session attrs)).
Proof.
  assert (Hidem : forall wild wild' c,
             (forall fb, fb ∈ wild' -> fb ∈ wild) ->
             applyWildcard wild' (applyWildcard wild c) = applyWildcard wild c).
  { intros wild wild' c Hsub. apply applyWildcard_absorbed.
    intros fb Hfb. apply applyWildcard_elem. right. now apply Hsub. }
  split; [intros wild c; now apply Hidem|].
  intros attrs a Hfrag Hsub.
  assert (Hflat : forall l, allAttributes (session l) = l).
  { intros l. unfold session, allAttributes. cbn [MediaDescriptions].
    rewrite bind_cons. cbn. now rewrite app_nil_r. }
  unfold resultOf. rewrite !buildCodecMap_fold. cbn [fst].
  unfold wildcardsOf in *. rewrite !Hflat in *.
  rewrite omap_app, bind_app. cbn [omap list_omap]. rewrite Hfrag.
  rewrite bind_cons. cbn. rewrite !app_nil_r.
  apply map_fmap_ext. intros pt c _.
  rewrite applyWildcard_app. now apply Hidem.
Qed.

Lemma wildcard_feedback_is_idempotent_witness :
  fragment (attr "rtcp-fb" "* nack") = None
  /\ resultOf buildCodecMap
       (session ([attr "rtpmap" "97 VP8/90000"; attr "rtcp-fb" "* nack"]
                 ++ [attr "rtcp-fb" "* nack"]))
     = resultOf buildCodecMap
         (session [attr "rtpmap" "97 VP8/90000"; attr "rtcp-fb" "* nack"]).
Proof.
  split; [reflexivity|].
  apply (proj2 wildcard_feedback_is_idempotent
           [attr "rtpmap" "97 VP8/90000"; attr "rtcp-fb" "* nack"]
           (attr "rtcp-fb" "* nack")).
  - reflexivity.
  - intros fb Hfb. exact Hfb.
Defined.

(** ** First non-empty wins, over a whole session *)

Lemma firstNonEmpty_firstString (a b : string) (l : list string) :
  firstNonEmpty (firstString a b :: l) = firstNonEmpty (a :: b :: l).
Proof.
  unfold firstString. cbn. destruct (String.eqb_spec a ""); [reflexivity|].
  destruct (String.eqb_spec a ""); [contradiction | reflexivity].
Qed.

Lemma firstNonZero_firstZ (a b : Z) (l : list Z) :
  firstNonZero (firstZ a b :: l) = firstNonZero (a :: b :: l).
Proof.
  unfold firstZ. cbn. destruct (Z.eqb_spec a 0); [reflexivity|].
  destruct (Z.eqb_spec a 0); [contradiction | reflexivity].
Qed.

Lemma firstNonEmpty_one (a : string) : firstNonEmpty [a] = a.
Proof. cbn. now destruct (String.eqb_spec a ""). Qed.

Lemma firstNonZero_one (a : Z) : firstNonZero [a] = a.
Proof. cbn. now destruct (Z.eqb_spec a 0). Qed.

(** One field under a fold of merges. *)
Lemma fold_mergeFields_field {V} (field : Codec -> V) (first : list V -> V)
      (pick : V -> V -> V) :
  (forall saved c, field (mergeFields saved c) = pick (field saved) (field c)) ->
  (forall a b l, first (pick a b :: l) = first (a :: b :: l)) ->
  (forall a, first [a] = a) ->
  forall (frags : list Codec) (o : option Codec),
    field (default zeroCodec
             (foldl (fun o c => Some (mergeFields (default zeroCodec o) c))
                o frags))
    = first (field (default zeroCodec o) :: (field <$> frags)).
Proof.
  intros Hmerge Hpick Hone frags.
  induction frags as [|f frags IH]; intros o; cbn [foldl].
  - cbn. now rewrite Hone.
  - rewrite IH. cbn [default from_option id].
    rewrite Hmerge, Hpick, fmap_cons. reflexivity.
Qed.

Lemma fold_mergeFields_first (frags : list Codec) (o : option Codec) :
  let c := default zeroCodec
             (foldl (fun o c => Some (mergeFields (default zeroCodec o) c))
                o frags) in
  let all := default zeroCodec o :: frags in
  Name c = firstNonEmpty (Name <$> all)
  /\ ClockRate c = firstNonZero (ClockRate <$> all)
  /\ EncodingParameters c = firstNonEmpty (EncodingParameters <$> all)
  /\ Fmtp c = firstNonEmpty (Fmtp <$> all).
Proof.
  cbn zeta. rewrite !fmap_cons. repeat split.
  - apply (fold_mergeFields_field Name firstNonEmpty firstString);
      auto using firstNonEmpty_firstString, firstNonEmpty_one.
  - apply (fold_mergeFields_field ClockRate firstNonZero firstZ);
      auto using firstNonZero_firstZ, firstNonZero_one.
  - apply (fold_mergeFields_field EncodingParameters firstNonEmpty firstString);
      auto using firstNonEmpty_firstString, firstNonEmpty_one.
  - apply (fold_mergeFields_field Fmtp firstNonEmpty firstString);
      auto using firstNonEmpty_firstString, firstNonEmpty_one.
Qed.

Lemma firstNonEmpty_skip (l : list string) :
  firstNonEmpty ("" :: l) = firstNonEmpty l.
Proof. reflexivity. Qed.

(** Over a whole session the first value wins for each scalar field: the
    codec that a lookup returns has the first non-empty name, the first
    non-zero clock rate, the first non-empty encoding parameters and the
    first non-empty fmtp among the static codec of the payload type and the
    fragments for it in encounter order. A later attribute never replaces a
    value that an earlier one, or the static table, has set. *)
Theorem first_value_wins (s : SessionDescription) (pt : Z) (c : Codec) :
  resultOf (GetCodecForPayloadType pt) s = (c, None) ->
  Name c = firstNonEmpty (Name <$> contributions pt s)
  /\ ClockRate c = firstNonZero (ClockRate <$> contributions pt s)
  /\ EncodingParameters c
     = firstNonEmpty (EncodingParameters <$> contributions pt s)
  /\ Fmtp c = firstNonEmpty (Fmtp <$> contributions pt s).
Proof.
  intros Hc. apply GetCodecForPayloadType_found in Hc as (c0 & Hc0 & ->).
  destruct (applyWildcard_scalars (wildcardsOf s) c0)
    as (_ & -> & -> & -> & ->).
  pose proof (fold_mergeFields_first (fragmentsFor pt s) (staticCodecs !! pt))
    as H.
  cbn zeta in H. rewrite Hc0 in H. cbn [default] in H.
  unfold contributions.
  destruct (staticCodecs !! pt) as [st|]; cbn [option_list default app] in *.
  - exact H.
  - rewrite !fmap_cons in H. cbn in H. exact H.
Qed.

Lemma first_value_wins_witness :
  resultOf (GetCodecForPayloadType 96) sessionTwice
  = (mkCodec 96 "opus" 48000 "2" "a=1" [], None)
  /\ Name (mkCodec 96 "opus" 48000 "2" "a=1" [])
     = firstNonEmpty (Name <$> contributions 96 sessionTwice)
  /\ ClockRate (mkCodec 96 "opus" 48000 "2" "a=1" [])
     = firstNonZero (ClockRate <$> contributions 96 sessionTwice)
  /\ EncodingParameters (mkCodec 96 "opus" 48000 "2" "a=1" [])
     = firstNonEmpty (EncodingParameters <$> contributions 96 sessionTwice)
  /\ Fmtp (mkCodec 96 "opus" 48000 "2" "a=1" [])
     = firstNonEmpty (Fmtp <$> contributions 96 sessionTwice).
Proof.
  split; [reflexivity|].
  apply (first_value_wins sessionTwice 96). reflexivity.
Defined.

(** ** Other payload types *)

Lemma allAttributes_session (l : list Attribute) :
  allAttributes (session l) = l.
Proof.
  unfold session, allAttributes. cbn [MediaDescriptions].
  rewrite bind_cons. cbn. now rewrite app_nil_r.
Qed.

(** The answer for a payload type depends on the attributes for that payload
    type and on the wildcard feedback alone: an attribute that brings no
    wildcard feedback and no fragment for [pt] can be removed from anywhere
    in the session without changing the lookup of [pt]. *)
Theorem other_attributes_do_not_interfere (before after : list Attribute)
        (a : Attribute) (pt : Z) :
  wildcardFeedback a = [] ->
  (forall c, fragment a = Some c -> PayloadType c <> pt) ->
  resultOf (GetCodecForPayloadType pt) (session (before ++ a :: after))
  = resultOf (GetCodecForPayloadType pt) (session (before ++ after)).
Proof.
  intros Hw Hfrag.
  rewrite !GetCodecForPayloadType_result, !buildCodecMap_lookup.
  unfold fragmentsFor, wildcardsOf. rewrite !allAttributes_session.
  rewrite !omap_app, !bind_app, !filter_app, bind_cons, Hw.
  cbn [omap list_omap app].
  destruct (fragment a) as [c|] eqn:Hf; [|reflexivity].
  rewrite filter_cons, decide_False by now apply Hfrag. reflexivity.
Qed.

Lemma other_attributes_do_not_interfere_witness :
  resultOf (GetCodecForPayloadType 96)
    (session ([attr "rtpmap" "96 opus/48000"]
              ++ attr "rtpmap" "97 VP8/90000" :: [attr "fmtp" "96 a=1"]))
  = resultOf (GetCodecForPayloadType 96)
      (session ([attr "rtpmap" "96 opus/48000"] ++ [attr "fmtp" "96 a=1"])).
Proof.
  apply (other_attributes_do_not_interfere [attr "rtpmap" "96 opus/48000"]
           [attr "fmtp" "96 a=1"] (attr "rtpmap" "97 VP8/90000") 96).
  - reflexivity.
  - intros c [= <-]. discriminate.
Defined.

(** * Connection roles *)

(** [ConnectionRole.String] names the four roles with four different words
    and answers ["Unknown"] exactly for every other number, the zero value
    included. *)
Theorem ConnectionRole_String_names (t u : ConnectionRole) :
  (ConnectionRole_String t = "Unknown" <-> ~ (1 <= t <= 4))
  /\ (1 <= t <= 4 -> 1 <= u <= 4 ->
      ConnectionRole_String t = ConnectionRole_String u -> t = u)
  /\ ConnectionRole_String ConnectionRoleActive = "active"
  /\ ConnectionRole_String ConnectionRolePassive = "passive"
  /\ ConnectionRole_String ConnectionRoleActpass = "actpass"
  /\ ConnectionRole_String ConnectionRoleHoldconn = "holdconn".
Proof.
  assert (Hcases : forall x : Z,
             (x = 1 /\ ConnectionRole_String x = "active")
             \/ (x = 2 /\ ConnectionRole_String x = "passive")
             \/ (x = 3 /\ ConnectionRole_String x = "actpass")
             \/ (x = 4 /\ ConnectionRole_String x = "holdconn")
             \/ (~ (1 <= x <= 4) /\ ConnectionRole_String x = "Unknown")).
  { intros x. unfold ConnectionRole_String, ConnectionRoleActive,
      ConnectionRolePassive, ConnectionRoleActpass, ConnectionRoleHoldconn.
    change (0 + 1) with 1. change (1 + 1) with 2. change (2 + 1) with 3.
    change (3 + 1) with 4.
    destruct (Z.eqb_spec x 1); [now left|].
    destruct (Z.eqb_spec x 2); [right; now left|].
    destruct (Z.eqb_spec x 3); [right; right; now left|].
    destruct (Z.eqb_spec x 4); [right; right; right; now left|].
    right; right; right; right. split; [lia | reflexivity]. }
  split; [|split; [|repeat split]].
  - destruct (Hcases t) as [[-> H]|[[-> H]|[[-> H]|[[-> H]|[Hout H]]]]];
      rewrite H; split; try discriminate; try lia; tauto.
  - intros Ht Hu.
    destruct (Hcases t) as [[-> H]|[[-> H]|[[-> H]|[[-> H]|[Hout H]]]]];
      try lia;
      destruct (Hcases u) as [[-> H']|[[-> H']|[[-> H']|[[-> H']|[Hout' H']]]]];
      try lia; rewrite H, H'; try reflexivity; discriminate.
Qed.

Lemma ConnectionRole_String_names_witness :
  ConnectionRole_String 3 = ConnectionRole_String ConnectionRoleActpass
  /\ 3 = ConnectionRoleActpass.
Proof.
  split; [reflexivity|].
  apply (proj1 (proj2 (ConnectionRole_String_names 3 ConnectionRoleActpass)));
    [lia | unfold ConnectionRoleActpass; lia | reflexivity].
Defined.

(** ** What a match of fmtp strings guarantees *)

Lemma Forall2_fmap_eq {A B} (f : A -> B) (l1 l2 : list A) :
  Forall2 (fun x y => f y = f x) l1 l2 -> f <$> l1 = f <$> l2.
Proof.
  induction 1 as [|x y l1 l2 Hxy _ IH]; [reflexivity|].
  rewrite !fmap_cons. now rewrite Hxy, IH.
Qed.

(** [equivalentFmtp] never accepts two strings whose parts differ once
    trimmed: when it holds, the trimmed parts of the one are a rearrangement
    of the trimmed parts of the other. *)
Theorem equivalentFmtp_sound (want got : string) :
  equivalentFmtp want got = true ->
  strings.TrimSpace <$> strings.Split want ";"
  ≡ₚ strings.TrimSpace <$> strings.Split got ";".
Proof.
  intros H. apply equivalentFmtp_Forall2, Forall2_fmap_eq in H.
  destruct (Strings_sorted_perm (strings.Split want ";")) as [_ Hw].
  destruct (Strings_sorted_perm (strings.Split got ";")) as [_ Hg].
  rewrite <- Hw, <- Hg. now rewrite H.
Qed.

Lemma equivalentFmtp_sound_witness :
  equivalentFmtp "b=1 ;a=2" " a=2;b=1" = true
  /\ strings.TrimSpace <$> strings.Split "b=1 ;a=2" ";"
     ≡ₚ strings.TrimSpace <$> strings.Split " a=2;b=1" ";".
Proof.
  split; [reflexivity|].
  apply (equivalentFmtp_sound "b=1 ;a=2" " a=2;b=1"). reflexivity.
Defined.

(** ** Attributes added at the end *)

Lemma firstNonEmpty_head (x : string) (l : list string) :
  x <> "" -> firstNonEmpty (x :: l) = x.
Proof. intros H. cbn. now destruct (String.eqb_spec x ""). Qed.

Lemma firstNonZero_head (x : Z) (l : list Z) :
  x <> 0 -> firstNonZero (x :: l) = x.
Proof. intros H. cbn. now destruct (Z.eqb_spec x 0). Qed.

Lemma fragmentsFor_app (pt : Z) (l1 l2 : list Attribute) :
  fragmentsFor pt (session (l1 ++ l2))
  = fragmentsFor pt (session l1) ++ fragmentsFor pt (session l2).
Proof.
  unfold fragmentsFor. rewrite !allAttributes_session.
  now rewrite omap_app, filter_app.
Qed.

(** Attributes added behind those of a session only fill what is still
    empty: every payload type that was found is still found, each scalar
    field that was set keeps its value, and the feedback list keeps all its
    strings. *)
Theorem later_attributes_only_fill_gaps (attrs extra : list Attribute)
        (pt : Z) (c : Codec) :
  resultOf (GetCodecForPayloadType pt) (session attrs) = (c, None) ->
  exists c',
    resultOf (GetCodecForPayloadType pt) (session (attrs ++ extra))
    = (c', None)
    /\ (Name c <> "" -> Name c' = Name c)
    /\ (ClockRate c <> 0 -> ClockRate c' = ClockRate c)
    /\ (EncodingParameters c <> "" ->
        EncodingParameters c' = EncodingParameters c)
    /\ (Fmtp c <> "" -> Fmtp c' = Fmtp c)
    /\ (forall fb, fb ∈ RTCPFeedback c -> fb ∈ RTCPFeedback c').
Proof.
  intros Hc. apply GetCodecForPayloadType_found in Hc as (c0 & Hc0 & ->).
  destruct (fold_mergeFields_Some (fragmentsFor pt (session extra)) c0)
    as (c1 & Hc1).
  assert (Hfold : foldl (fun o c => Some (mergeFields (default zeroCodec o) c))
                    (staticCodecs !! pt)
                    (fragmentsFor pt (session (attrs ++ extra))) = Some c1).
  { now rewrite fragmentsFor_app, foldl_app, Hc0. }
  exists (applyWildcard (wildcardsOf (session (attrs ++ extra))) c1).
  split; [apply GetCodecForPayloadType_found; eauto|].
  destruct (applyWildcard_scalars (wildcardsOf (session attrs)) c0)
    as (_ & -> & -> & -> & ->).
  destruct (applyWildcard_scalars (wildcardsOf (session (attrs ++ extra))) c1)
    as (_ & -> & -> & -> & ->).
  pose proof (fold_mergeFields_first (fragmentsFor pt (session extra))
                (Some c0)) as Hfirst.
  cbn zeta in Hfirst. rewrite Hc1 in Hfirst.
  cbn [default from_option id] in Hfirst. rewrite !fmap_cons in Hfirst.
  destruct Hfirst as (Hn & Hr & He & Hf).
  repeat split.
  - intros H. now rewrite Hn, firstNonEmpty_head.
  - intros H. now rewrite Hr, firstNonZero_head.
  - intros H. now rewrite He, firstNonEmpty_head.
  - intros H. now rewrite Hf, firstNonEmpty_head.
  - intros fb Hfb. apply applyWildcard_elem in Hfb. apply applyWildcard_elem.
    pose proof (mergeFields_fold_feedback (fragmentsFor pt (session extra))
                  (Some c0)) as Hfeed.
    rewrite Hc1 in Hfeed. cbn [default from_option id] in Hfeed.
    rewrite Hfeed, elem_of_app.
    unfold wildcardsOf. rewrite !allAttributes_session, bind_app, elem_of_app.
    unfold wildcardsOf in Hfb. rewrite allAttributes_session in Hfb. tauto.
Qed.

Lemma later_attributes_only_fill_gaps_witness :
  resultOf (GetCodecForPayloadType 96) (session [attr "rtpmap" "96 opus/48000"])
  = (mkCodec 96 "opus" 48000 "" "" [], None)
  /\ exists c',
      resultOf (GetCodecForPayloadType 96)
        (session ([attr "rtpmap" "96 opus/48000"]
                  ++ [attr "rtpmap" "96 VP8/90000/2"; attr "rtcp-fb" "* nack"]))
      = (c', None)
      /\ (Name (mkCodec 96 "opus" 48000 "" "" []) <> "" -> Name c' = "opus")
      /\ (ClockRate (mkCodec 96 "opus" 48000 "" "" []) <> 0 ->
          ClockRate c' = 48000)
      /\ (EncodingParameters (mkCodec 96 "opus" 48000 "" "" []) <> "" ->
          EncodingParameters c' = "")
      /\ (Fmtp (mkCodec 96 "opus" 48000 "" "" []) <> "" -> Fmtp c' = "")
      /\ (forall fb, fb ∈ RTCPFeedback (mkCodec 96 "opus" 48000 "" "" []) ->
                     fb ∈ RTCPFeedback c').
Proof.
  split; [reflexivity|].
  apply (later_attributes_only_fill_gaps [attr "rtpmap" "96 opus/48000"]
           [attr "rtpmap" "96 VP8/90000/2"; attr "rtcp-fb" "* nack"] 96
           (mkCodec 96 "opus" 48000 "" "" [])).
  reflexivity.
Defined.

(** * Rendering a codec *)

Example Codec_String_sample :
  Codec_String (mkCodec 96 "opus" 48000 "2" "a=1" ["nack"; "ccm fir"])
  = "96 opus/48000/2 (a=1) [nack, ccm fir]".
Proof. reflexivity. Qed.

Example Codec_String_zero : Codec_String zeroCodec = "0 /0/ () []".
Proof. reflexivity. Qed.

(** Reading back the digits that [%d] writes. *)
Ltac eval_digit :=
  match goal with
  | |- context [strconv.digit ?c] =>
      let v := eval vm_compute in (strconv.digit c) in
      change (strconv.digit c) with v; cbv iota beta
  end.

Lemma digits_of_uint_acc (d : Decimal.uint) (acc : positive) :
  strconv.digits (Z.pos acc) (DecimalString.NilEmpty.string_of_uint d)
  = Some (Z.pos (Pos.of_uint_acc d acc)).
Proof.
  revert acc. induction d; intros acc; cbn -[Z.mul Z.add Pos.mul Pos.add];
    try reflexivity; eval_digit;
    match goal with
    | |- strconv.digits ?z _ = Some (Z.pos (Pos.of_uint_acc _ ?p)) =>
        replace z with (Z.pos p) by lia; apply IHd
    end.
Qed.

Lemma digits_of_uint (d : Decimal.uint) :
  strconv.digits 0 (DecimalString.NilEmpty.string_of_uint d)
  = Some (Z.of_N (Pos.of_uint d)).
Proof.
  induction d; cbn -[Z.mul Z.add Pos.mul Pos.add]; try reflexivity;
    eval_digit; try exact IHd;
    match goal with
    | |- strconv.digits ?z _ = Some (Z.pos (Pos.of_uint_acc _ ?p)) =>
        replace z with (Z.pos p) by lia; apply digits_of_uint_acc
    end.
Qed.

Lemma digits_decimal (n : Z) :
  0 <= n -> strconv.digits 0 (fmt.decimal n) = Some n.
Proof.
  intros Hn. unfold fmt.decimal. rewrite digits_of_uint.
  f_equal. change (Pos.of_uint ?d) with (N.of_uint d).
  rewrite DecimalN.Unsigned.of_to. lia.
Qed.

Lemma decimal_nonempty (n : Z) : fmt.decimal n <> "".
Proof.
  unfold fmt.decimal. destruct (Z.to_N n) as [|p]; [discriminate|].
  cbn. intros H.
  pose proof (DecimalPos.Unsigned.to_uint_nonnil p) as Hnil.
  destruct (Pos.to_uint p); [contradiction | discriminate..].
Qed.

Lemma ParseUint_decimal (n bitSize : Z) :
  0 <= n <= 2 ^ bitSize - 1 -> 2 ^ bitSize - 1 <= 2 ^ 64 - 1 ->
  strconv.ParseUint (fmt.decimal n) bitSize = (n, None).
Proof.
  intros Hn H64. unfold strconv.ParseUint.
  pose proof (decimal_nonempty n) as Hne.
  destruct (fmt.decimal n) as [|x rest] eqn:Hd; [contradiction|].
  rewrite <- Hd. apply parseLoop_digits; try lia.
  apply digits_decimal. lia.
Qed.

(** The rendering of a codec opens with its rtpmap body, and the decoder
    reads the body back: for a payload type and a clock rate in range and a
    name and encoding parameters without space or slash, [parseRtpmap] on
    [rtpmap:] followed by the body returns the payload type, name, clock
    rate and encoding parameters of the codec. *)
Theorem Codec_String_opens_with_rtpmap_body (c : Codec) :
  0 <= PayloadType c <= 255 -> 0 <= ClockRate c <= 2 ^ 32 - 1 ->
  noByte " " (Name c) = true -> noByte "/" (Name c) = true ->
  noByte " " (EncodingParameters c) = true ->
  noByte "/" (EncodingParameters c) = true ->
  Codec_String c
  = (rtpmapBody c ++ " (" ++ Fmtp c ++ ") ["
     ++ Join (RTCPFeedback c) ", " ++ "]")%string
  /\ parseRtpmap ("rtpmap:" ++ rtpmapBody c)
     = (mkCodec (PayloadType c) (Name c) (ClockRate c)
          (EncodingParameters c) "" [], None).
Proof.
  intros Hpt Hcr Hn1 Hn2 He1 He2.
  assert (Hppt : strconv.ParseUint (fmt.decimal (PayloadType c)) 8
                 = (PayloadType c, None))
    by (apply ParseUint_decimal; lia).
  assert (Hpcr : strconv.ParseUint (fmt.decimal (ClockRate c)) 32
                 = (ClockRate c, None))
    by (apply ParseUint_decimal; lia).
  destruct (ParseUint_ok _ _ _ Hpcr) as (_ & Hc1 & _ & Hc3).
  split.
  - unfold Codec_String, rtpmapBody. now rewrite !append_assoc.
  - unfold rtpmapBody.
    change ("rtpmap:" ++ ?x)%string with ("rtpmap" ++ ":" ++ x)%string.
    rewrite parseRtpmap_parts with (n := PayloadType c);
      [|reflexivity|reflexivity|exact Hppt|].
    2:{ rewrite !noByte_append, Hn1, Hc1, He1. reflexivity. }
    rewrite !slash_assoc, !Split_cut, Split_one by assumption.
    cbn. rewrite Hpcr. unfold uint32. rewrite Z.mod_small by lia.
    reflexivity.
Qed.

Lemma Codec_String_opens_with_rtpmap_body_witness :
  Codec_String (mkCodec 111 "opus" 48000 "2" "minptime=10" ["nack"])
  = ("111 opus/48000/2" ++ " (" ++ "minptime=10" ++ ") [" ++ "nack" ++ "]")%string
  /\ parseRtpmap ("rtpmap:" ++ "111 opus/48000/2")
     = (mkCodec 111 "opus" 48000 "2" "" [], None).
Proof.
  apply (Codec_String_opens_with_rtpmap_body
           (mkCodec 111 "opus" 48000 "2" "minptime=10" ["nack"]));
    cbn; first [lia | reflexivity].
Defined.
